(** * The MapD dialect of the ibis SQL compiler: a shallow embedding

    The development follows [ibis/mapd/compiler.py] (serialisation of a
    [Select]: GROUP BY / HAVING, LIMIT, the FROM clause produced by the
    table-set formatter, and the entry point [to_sql]) and
    [ibis/mapd/client.py] (type discovery, schema inference and the typed
    parameter binder).

    Python values are modelled as the code uses them: lists as [list],
    dictionaries with string keys as [gmap string _], [None]-able values as
    [option], a [StringIO] buffer as the [string] written so far, context
    objects as entries of a store addressed by reference, and a call that
    may raise as a computation in the [result] monad.

    Code that the two files inherit or import ([ibis.sql.compiler],
    [ibis.expr], [ibis.util], pandas) is either a parameter of the
    definitions that use it or a definition marked as modelled from the
    spec.

    Layout: the embedding ([Py], [IR], [Compiler], [Client], [Binder],
    [Entry]), the notions the properties are stated with ([Notions]),
    concrete inputs ([Sample]), the query builder on table sets
    ([Lowering]), further functions of the client
    ([Naming], [Discovery], [Execution]) with their notions and inputs
    ([Notions2], [Sample2]), then the properties. *)

From Stdlib Require Import ZArith String List Lia.
From stdpp Require Import base strings list gmap pretty.

Set Warnings "-register-all".

Open Scope string_scope.
Open Scope list_scope.
Open Scope stdpp_scope.

(** ** Python outcomes *)

Module Py.

(** The exception classes that the modelled code raises or lets through.
    All of them derive from Python's [Exception]. *)
Inductive exn : Type :=
| TranslationError (msg : string)
| ExpressionError (msg : string)
| UnsupportedBackendType (ty : string)
| IbisTypeError (msg : string)
| AssertionError
| IndexError
| KeyError (key : string)
| ValueError (msg : string)
| NotImplementedError (msg : string)
| AttributeError (msg : string)
| RuntimeError (msg : string).

Inductive result (A : Type) : Type :=
| Ok (a : A)
| Raise (e : exn).

Arguments Ok {A} a.
Arguments Raise {A} e.

#[export] Instance result_ret : MRet result := fun A a => Ok a.

#[export] Instance result_bind : MBind result := fun A B f m =>
  match m with
  | Ok a => f a
  | Raise e => Raise e
  end.

#[export] Instance result_fmap : FMap result := fun A B f m =>
  match m with
  | Ok a => Ok (f a)
  | Raise e => Raise e
  end.

(** [assert c] *)
Definition assert (c : bool) : result unit :=
  if c then Ok tt else Raise AssertionError.

(** [try: body / except Exception: handler] *)
Definition try_except {A} (body : result A) (handler : exn -> result A)
  : result A :=
  match body with
  | Ok a => Ok a
  | Raise e => handler e
  end.

(** Truth value of a list: [if xs:] holds exactly for a non-empty list. *)
Definition truthy {A} (xs : list A) : bool :=
  match xs with
  | [] => false
  | _ :: _ => true
  end.

(** The line feed character, and [sep.join(parts)]. *)
Definition nl : string := String (Ascii.ascii_of_nat 10) EmptyString.

Definition join (sep : string) (parts : list string) : string :=
  String.concat sep parts.

(** ['{}'.format(i)] for an [int]. *)
Definition str_int (i : Z) : string := pretty i.

(** A [StringIO]: the text written so far. *)
Definition StringIO : Type := string.
Definition new_buffer : StringIO := "".
Definition write (buf : StringIO) (text : string) : StringIO := buf +:+ text.
Definition getvalue (buf : StringIO) : string := buf.

(** [zip(a, b, c)] stops at the shortest argument. *)
Fixpoint zip3 {A B C} (a : list A) (b : list B) (c : list C)
  : list (A * B * C) :=
  match a, b, c with
  | x :: a', y :: b', z :: c' => (x, y, z) :: zip3 a' b' c'
  | _, _, _ => []
  end.

End Py.

Import Py.

(** ** Expression IR *)

Module IR.

Inductive literal : Type :=
| LInt (i : Z)
| LStr (s : string)
| LBool (b : bool).

Inductive comparison : Type :=
| Equals | NotEquals | Less | LessEqual | Greater | GreaterEqual.

(** Value expressions.  [Named e n] is [e.name(n)]; it wraps the expression
    and leaves its operation unchanged. *)
Inductive expr : Type :=
| TableColumn (name : string) (table : string)
| Literal (value : literal)
| Comparison (kind : comparison) (left right : expr)
| Substring (arg start length : expr)
| StrRight (arg nchars : expr)
| Lowercase (arg : expr)
| Uppercase (arg : expr)
| StringLength (arg : expr)
| Named (arg : expr) (name : string).

(** [expr.op()]: the operation under any explicit names. *)
Fixpoint op (e : expr) : expr :=
  match e with
  | Named e' _ => op e'
  | _ => e
  end.

#[export] Instance literal_eq_dec : EqDecision literal.
Proof. solve_decision. Defined.

#[export] Instance comparison_eq_dec : EqDecision comparison.
Proof. solve_decision. Defined.

Definition literal_eqb (a b : literal) : bool := bool_decide (a = b).
Definition comparison_eqb (a b : comparison) : bool := bool_decide (a = b).

(** Modelled from the spec: [Expr.equals], the structural comparison of two
    expression trees (same kind, same arguments, same name), which lives in
    [ibis.expr.types]. *)
Fixpoint equals (a b : expr) : bool :=
  match a, b with
  | TableColumn n t, TableColumn n' t' => String.eqb n n' && String.eqb t t'
  | Literal v, Literal v' => literal_eqb v v'
  | Comparison k l r, Comparison k' l' r' =>
      comparison_eqb k k' && equals l l' && equals r r'
  | Substring s st len, Substring s' st' len' =>
      equals s s' && equals st st' && equals len len'
  | StrRight s n, StrRight s' n' => equals s s' && equals n n'
  | Lowercase s, Lowercase s' => equals s s'
  | Uppercase s, Uppercase s' => equals s s'
  | StringLength s, StringLength s' => equals s s'
  | Named e n, Named e' n' => equals e e' && String.eqb n n'
  | _, _ => false
  end.

(** Modelled from the spec: the string API of [ibis.expr.api].  [substr]
    records [start] and [length] as given; [left(s, n)] is expressed as
    [substr(s, 0, n)]; [right(s, n)] is a [StrRight] node. *)
Definition substr (s : expr) (start length : Z) : expr :=
  Substring s (Literal (LInt start)) (Literal (LInt length)).

Definition left (s : expr) (nchars : Z) : expr := substr s 0 nchars.

Definition right (s : expr) (nchars : Z) : expr :=
  StrRight s (Literal (LInt nchars)).

(** Modelled from the spec: [expr.get_name()] of [ibis.expr.types], used
    where a concrete naming function is needed.  A column reference carries
    its column name, an explicitly named expression its given name; any
    other expression is unnamed. *)
Definition resolve_name (e : expr) : result string :=
  match e with
  | TableColumn n _ => Ok n
  | Named _ n => Ok n
  | _ => Raise (ExpressionError "Expression is not named")
  end.

End IR.

Import IR.

(** ** [ibis/mapd/compiler.py] *)

Module Compiler.

Inductive join_kind : Type :=
| InnerJoin | LeftJoin | RightJoin | OuterJoin | CrossJoin.

(** Table expressions: a table reference, or a join of two table
    expressions carrying its ordered list of predicates. *)
Inductive table_expr : Type :=
| Table (name : string)
| Join (kind : join_kind) (left right : table_expr) (predicates : list expr).

(** The optional limit of a [Select], the dictionary with keys ['n'] and
    ['offset']. *)
Record limit_spec : Type := { limit_n : Z; limit_offset : option Z }.

(** The fields of a [Select] that [MapDSelect] serialises itself. *)
Record Select : Type := {
  table_set : table_expr;
  group_by : list expr;
  having : list expr;
  limit : option limit_spec
}.

(** [MapDTableSetFormatter._join_names] *)
Definition _join_names (kind : join_kind) : option string :=
  match kind with
  | InnerJoin => Some "JOIN"
  | LeftJoin => Some "LEFT JOIN"
  | _ => None
  end.

(** The three lists a table-set formatter fills while it unravels a join
    tree. *)
Record formatter : Type := {
  join_tables : list string;
  join_types : list string;
  join_predicates : list (list expr)
}.

Definition new_formatter : formatter :=
  {| join_tables := []; join_types := []; join_predicates := [] |}.

Definition append_table (self : formatter) (t : string) : formatter :=
  {| join_tables := join_tables self ++ [t];
     join_types := join_types self;
     join_predicates := join_predicates self |}.

Definition append_join (self : formatter) (jname t : string)
    (preds : list expr) : formatter :=
  {| join_tables := join_tables self ++ [t];
     join_types := join_types self ++ [jname];
     join_predicates := join_predicates self ++ [preds] |}.

(** [op.args[0]] as an expression: the first argument of an operation, when
    it is an expression. *)
Definition first_arg (o : expr) : result expr :=
  match o with
  | Comparison _ l _ => Ok l
  | Substring a _ _ => Ok a
  | StrRight a _ => Ok a
  | Lowercase a => Ok a
  | Uppercase a => Ok a
  | StringLength a => Ok a
  | _ => Raise (AttributeError "get_name")
  end.

Section Dialect.

(** What the dialect classes inherit from [ibis.sql.compiler] and
    [ibis.util], taken as parameters: the name of an expression, the
    translation of a scalar expression to SQL, the text of a table-set leaf,
    [util.indent] and the formatter's indentation width. *)
Variable get_name : expr -> result string.
Variable _translate : expr -> result string.
Variable _format_table : table_expr -> result string.
Variable util_indent : string -> nat -> string.
Variable self_indent : nat.

(** *** [MapDSelect] *)

Definition format_group_by (self : Select) : result (option string) :=
  if negb (truthy (group_by self)) then Ok None
  else
    let lines := [] in
    lines ← (if truthy (group_by self) then
               columns ← mapM get_name (group_by self);
               let clause := "GROUP BY " +:+ join ", " columns in
               Ok (lines ++ [clause])
             else Ok lines);
    lines ← (if truthy (having self) then
               trans_exprs ← mapM _translate (having self);
               Ok (lines ++ ["HAVING " +:+ join " AND " trans_exprs])
             else Ok lines);
    Ok (Some (join nl lines)).

Definition format_limit (self : Select) : option string :=
  match limit self with
  | None => None
  | Some lim =>
      let buf := new_buffer in
      let '(n, offset) := (limit_n lim, limit_offset lim) in
      let buf := write buf ("LIMIT " +:+ str_int n) in
      let buf :=
        match offset with
        | Some o => if negb (o =? 0)%Z then write buf (", " +:+ str_int o)
                    else buf
        | None => buf
        end in
      Some (getvalue buf)
  end.

(** *** [MapDTableSetFormatter] *)

Fixpoint _validate_join_predicates (predicates : list expr) : result unit :=
  match predicates with
  | [] => Ok tt
  | pred :: rest =>
      match op pred with
      | Comparison Equals left_on right_on =>
          l ← get_name left_on;
          r ← get_name right_on;
          if negb (String.eqb l r) then
            Raise (TranslationError
                     "Joining on different column names is not supported")
          else _validate_join_predicates rest
      | _ =>
          Raise (TranslationError
                   "Non-equality join predicates are not supported")
      end
  end.

Definition _format_predicate (predicate : expr) : result string :=
  column ← first_arg (op predicate);
  get_name column.

(** Modelled from the spec: [TableSetFormatter._get_join_type] of
    [ibis.sql.compiler], the join keyword of a node, looked up in
    [_join_names] by the class of the join. *)
Definition _get_join_type (kind : join_kind) : result string :=
  match _join_names kind with
  | Some jname => Ok jname
  | None => Raise (KeyError "join type")
  end.

(** Modelled from the spec: [TableSetFormatter._walk_join_tree] of
    [ibis.sql.compiler], the depth-first unravelling of a join node.  The
    predicates of the node are validated; the left child is flattened first
    (a join is walked recursively, a leaf becomes the anchor table); then
    the right child is appended as one more join step with the node's
    keyword and predicate list. *)
Fixpoint _walk_join_tree (o : table_expr) (self : formatter)
  : result formatter :=
  match o with
  | Join kind l r predicates =>
      _ ← _validate_join_predicates predicates;
      jname ← _get_join_type kind;
      self ← match l with
             | Join _ _ _ _ => _walk_join_tree l self
             | _ => t ← _format_table l; Ok (append_table self t)
             end;
      t ← _format_table r;
      Ok (append_join self jname t predicates)
  | _ => Raise (AttributeError "left")
  end.

(** The body of the [for] loop of [get_result], run over the zipped
    lists. *)
Fixpoint write_joins (buf : StringIO)
    (steps : list (string * string * list expr)) : result StringIO :=
  match steps with
  | [] => Ok buf
  | (jtype, table, preds) :: rest =>
      let buf := write buf nl in
      let buf := write buf (util_indent (jtype +:+ " " +:+ table) self_indent) in
      buf ← (if (0 <? length preds)%nat then
               let buf := write buf nl in
               fmt_preds ← mapM _format_predicate preds;
               let fmt_preds :=
                 util_indent ("USING " +:+ join ", " fmt_preds)
                             (self_indent * 2) in
               Ok (write buf fmt_preds)
             else Ok buf);
      write_joins buf rest
  end.

Definition get_result (e : table_expr) : result string :=
  let self := new_formatter in
  self ← match e with
         | Join _ _ _ _ => _walk_join_tree e self
         | _ => t ← _format_table e; Ok (append_table self t)
         end;
  match join_tables self with
  | [] => Raise IndexError
  | anchor :: tables =>
      let buf := write new_buffer anchor in
      buf ← write_joins buf
              (zip3 (join_types self) tables (join_predicates self));
      Ok (getvalue buf)
  end.

End Dialect.

(** Modelled from the spec: [ibis.util.indent], which puts [spaces] blanks
    in front of every line of [text]. *)
Fixpoint indent_lines (line_start : bool) (prefix text : string) : string :=
  match text with
  | EmptyString => EmptyString
  | String c rest =>
      (if line_start then prefix else "") +:+
      String c (indent_lines (Ascii.eqb c (Ascii.ascii_of_nat 10)) prefix rest)
  end.

Definition indent (text : string) (spaces : nat) : string :=
  indent_lines true (String.concat "" (replicate spaces " ")) text.

(** Modelled from the spec: [_format_table] on a table reference, which
    renders as the table's name. *)
Definition format_table_name (t : table_expr) : result string :=
  match t with
  | Table name => Ok name
  | Join _ _ _ _ => Raise (NotImplementedError "nested join")
  end.

End Compiler.

Import Compiler.

(** ** [ibis/mapd/client.py] *)

Module Client.

Definition NATIVE_PARTITION_COL : string := "_PARTITIONTIME".

(** *** Types and type discovery *)

(** The values that stand for a column type: the type constants of
    [ibis.expr.datatypes], the structured types, and a plain Python [str]
    (a tag that no table translated). *)
Inductive dtype : Type :=
| int64 | double | boolean | string_ | date_ | time_ | timestamp | binary
| Struct (names : list string) (types : list dtype)
| Array (value_type : dtype)
| Tag (tag : string).

Definition _IBIS_TYPE_TO_DTYPE : gmap string string :=
  list_to_map [
    ("string", "STRING");
    ("int64", "INT64");
    ("double", "FLOAT64");
    ("boolean", "BOOL");
    ("timestamp", "TIMESTAMP");
    ("date", "DATE")
  ].

Definition _DTYPE_TO_IBIS_TYPE : gmap string dtype :=
  list_to_map [
    ("INT64", int64);
    ("FLOAT64", double);
    ("BOOL", boolean);
    ("STRING", string_);
    ("DATE", date_);
    ("DATETIME", timestamp);
    ("TIME", time_);
    ("TIMESTAMP", timestamp);
    ("BYTES", binary)
  ].

Definition _LEGACY_TO_STANDARD : gmap string string :=
  list_to_map [
    ("INTEGER", "INT64");
    ("FLOAT", "FLOAT64");
    ("BOOLEAN", "BOOL")
  ].

(** [d.get(key, default)] *)
Definition dict_get {V} (d : gmap string V) (key : string) (dflt : V) : V :=
  default dflt (d !! key).

(** A backend field descriptor. *)
Inductive SchemaField : Type :=
| Field (name field_type mode : string) (fields : list SchemaField).

Definition field_name (f : SchemaField) : string :=
  match f with Field n _ _ _ => n end.
Definition field_type (f : SchemaField) : string :=
  match f with Field _ t _ _ => t end.
Definition field_mode (f : SchemaField) : string :=
  match f with Field _ _ m _ => m end.
Definition field_fields (f : SchemaField) : list SchemaField :=
  match f with Field _ _ _ fs => fs end.

(** A backend table: its declared fields and the outcome of calling
    [list_partitions()] on it. *)
Record BackendTable : Type := {
  schema : list SchemaField;
  list_partitions : result (list string)
}.

Definition Schema : Type := list (string * dtype).

Section Datatypes.

(** The constructors [dt.Array] and [dt.Struct], the conversion [dt.dtype]
    and the schema builder [ibis.schema] belong to [ibis.expr]; they are
    parameters here. *)
Variable dt_Array : dtype -> result dtype.
Variable dt_Struct : list string -> list dtype -> result dtype.
Variable dt_dtype : SchemaField -> result dtype.
Variable ibis_schema : list (string * dtype) -> result Schema.

Fixpoint _discover_type (field : SchemaField) : result dtype :=
  match field with
  | Field _ typ mode fields =>
      ibis_type ←
        (if String.eqb typ "RECORD" then
           _ ← assert (truthy fields);
           let names := map field_name fields in
           ibis_types ←
             (fix each (els : list SchemaField) : result (list dtype) :=
                match els with
                | [] => Ok []
                | el :: els' =>
                    t ← _discover_type el;
                    ts ← each els';
                    Ok (t :: ts)
                end) fields;
           dt_Struct names ibis_types
         else
           let ibis_type := dict_get _LEGACY_TO_STANDARD typ typ in
           Ok (dict_get _DTYPE_TO_IBIS_TYPE ibis_type (Tag ibis_type)));
      if String.eqb mode "REPEATED" then dt_Array ibis_type
      else Ok ibis_type
  end.

Definition pymapd_schema (table : BackendTable) : result Schema :=
  pairs ← mapM (fun el => t ← dt_dtype el; Ok (field_name el, t))
               (schema table);
  pairs ← try_except
            (partitions ← list_partitions table;
             if truthy partitions then
               Ok (pairs ++ [(NATIVE_PARTITION_COL, timestamp)])
             else Ok pairs)
            (fun _ => Ok pairs);
  ibis_schema pairs.

Definition pymapd_table_to_ibis_schema (table : BackendTable)
  : result Schema :=
  pairs ← mapM (fun el => t ← _discover_type el; Ok (field_name el, t))
               (schema table);
  pairs ← try_except
            (partitions ← list_partitions table;
             if truthy partitions then
               Ok (pairs ++ [(NATIVE_PARTITION_COL, timestamp)])
             else Ok pairs)
            (fun _ => Ok pairs);
  ibis_schema pairs.

End Datatypes.

(** Modelled from the spec: [ibis.schema], which builds a schema from
    (name, type) pairs and fails when a column name repeats. *)
Definition schema_of_pairs (pairs : list (string * dtype)) : result Schema :=
  if bool_decide (NoDup (map fst pairs)) then Ok pairs
  else Raise (ValueError "Duplicate column name(s)").

End Client.

Import Client.

(** ** The parameter binder of [ibis/mapd/client.py] *)

Module Binder.

(** *** Dates and times *)

(** [datetime.date] *)
Record date : Type := { year : Z; month : Z; day : Z }.

(** [datetime.datetime]; [tzinfo] is [None] for a naive value and the UTC
    offset in seconds for an aware one. *)
Record datetime : Type := {
  on_date : date;
  hour : Z;
  minute : Z;
  second : Z;
  microsecond : Z;
  tzinfo : option Z
}.

Definition UTC : Z := 0.

(** [value.date()] *)
Definition date_of (value : datetime) : date := on_date value.

Definition is_leap (y : Z) : bool :=
  ((y mod 4 =? 0) && (negb (y mod 100 =? 0) || (y mod 400 =? 0)))%Z.

Definition days_in_month (y m : Z) : Z :=
  if (m =? 2)%Z then (if is_leap y then 29 else 28)%Z
  else if ((m =? 4) || (m =? 6) || (m =? 9) || (m =? 11))%Z then 30%Z
  else 31%Z.

Definition next_day (d : date) : date :=
  if (day d <? days_in_month (year d) (month d))%Z then
    {| year := year d; month := month d; day := day d + 1 |}
  else if (month d <? 12)%Z then
    {| year := year d; month := month d + 1; day := 1 |}
  else {| year := year d + 1; month := 1; day := 1 |}.

Definition prev_day (d : date) : date :=
  if (1 <? day d)%Z then
    {| year := year d; month := month d; day := day d - 1 |}
  else if (1 <? month d)%Z then
    {| year := year d; month := month d - 1;
       day := days_in_month (year d) (month d - 1) |}
  else {| year := year d - 1; month := 12; day := 31 |}.

(** Midnight at the start of a date, naive. *)
Definition midnight (d : date) : datetime :=
  {| on_date := d; hour := 0; minute := 0; second := 0; microsecond := 0;
     tzinfo := None |}.

(** [value.replace(tzinfo=UTC)]: the same wall-clock fields, now read as
    UTC. *)
Definition localize_utc (value : datetime) : datetime :=
  {| on_date := on_date value; hour := hour value; minute := minute value;
     second := second value; microsecond := microsecond value;
     tzinfo := Some UTC |}.

(** [value.astimezone(UTC)] for an aware value whose offset is [off]
    seconds, with [-86400 < off < 86400]: the same instant with UTC
    wall-clock fields. *)
Definition astimezone_utc (value : datetime) (off : Z) : datetime :=
  let s := (hour value * 3600 + minute value * 60 + second value - off)%Z in
  let d :=
    if (s <? 0)%Z then prev_day (on_date value)
    else if (86400 <=? s)%Z then next_day (on_date value)
    else on_date value in
  let s := (s mod 86400)%Z in
  {| on_date := d; hour := s / 3600; minute := (s mod 3600) / 60;
     second := s mod 60; microsecond := microsecond value;
     tzinfo := Some UTC |}.

(** *** Values, placeholders and bound parameters *)

(** The run-time values handed to the binder. *)
Inductive py_value : Type :=
| VStr (s : string)
| VInt (i : Z)
| VFloat (bits : Z)
| VBool (b : bool)
| VDate (d : date)
| VDatetime (d : datetime)
| VList (items : list py_value)
| VOrderedDict (items : list (string * py_value))
| VNone.

(** The classes the dispatcher sees values under, and [issubclass] on
    them: [bool] is an [int], a [datetime] is a [date]. *)
Inductive value_class : Type :=
| T_str | T_int | T_float | T_bool | T_date | T_datetime | T_list
| T_OrderedDict | T_NoneType.

#[export] Instance value_class_eq_dec : EqDecision value_class.
Proof. solve_decision. Defined.

Definition type_of (v : py_value) : value_class :=
  match v with
  | VStr _ => T_str
  | VInt _ => T_int
  | VFloat _ => T_float
  | VBool _ => T_bool
  | VDate _ => T_date
  | VDatetime _ => T_datetime
  | VList _ => T_list
  | VOrderedDict _ => T_OrderedDict
  | VNone => T_NoneType
  end.

Definition issubclass (c d : value_class) : bool :=
  bool_decide (c = d) ||
  match c, d with
  | T_bool, T_int => true
  | T_datetime, T_date => true
  | _, _ => false
  end.

(** Typed placeholders, by expression class.  An array placeholder carries
    the name of its element type as [str(param.type().value_type)] prints
    it; a struct placeholder carries its named fields. *)
Inductive param_expr : Type :=
| StructScalar (name : string) (fields : list (string * param_expr))
| ArrayValue (name : string) (value_type : string)
| TimestampScalar (name : string)
| StringScalar (name : string)
| IntegerScalar (name : string)
| FloatingScalar (name : string)
| BooleanScalar (name : string)
| DateScalar (name : string).

Inductive param_class : Type :=
| C_StructScalar | C_ArrayValue | C_TimestampScalar | C_StringScalar
| C_IntegerScalar | C_FloatingScalar | C_BooleanScalar | C_DateScalar.

#[export] Instance param_class_eq_dec : EqDecision param_class.
Proof. solve_decision. Defined.

Definition class_of (p : param_expr) : param_class :=
  match p with
  | StructScalar _ _ => C_StructScalar
  | ArrayValue _ _ => C_ArrayValue
  | TimestampScalar _ => C_TimestampScalar
  | StringScalar _ => C_StringScalar
  | IntegerScalar _ => C_IntegerScalar
  | FloatingScalar _ => C_FloatingScalar
  | BooleanScalar _ => C_BooleanScalar
  | DateScalar _ => C_DateScalar
  end.

(** [param.get_name()] *)
Definition param_name (p : param_expr) : string :=
  match p with
  | StructScalar n _ | ArrayValue n _ | TimestampScalar n | StringScalar n
  | IntegerScalar n | FloatingScalar n | BooleanScalar n | DateScalar n => n
  end.

(** [param[k]] on a struct placeholder. *)
Fixpoint assoc {V} (k : string) (items : list (string * V)) : option V :=
  match items with
  | [] => None
  | (k', v) :: rest => if String.eqb k k' then Some v else assoc k rest
  end.

Definition getitem (p : param_expr) (k : string) : result param_expr :=
  match p with
  | StructScalar _ fields =>
      match assoc k fields with
      | Some f => Ok f
      | None => Raise (KeyError k)
      end
  | _ => Raise (KeyError k)
  end.

(** The backend's bound parameters. *)
Inductive query_parameter : Type :=
| ScalarQueryParameter (name : string) (type_ : string) (value : py_value)
| ArrayQueryParameter (name : string) (array_type : string)
    (values : list py_value)
| StructQueryParameter (name : string) (sub_params : list query_parameter).

(** *** The dispatcher *)

(** The functions registered on [pymapd_param]. *)
Inductive handler : Type :=
| pymapd_param_struct
| pymapd_param_array
| pymapd_param_timestamp
| pymapd_param_string
| pymapd_param_integer
| pymapd_param_double
| pymapd_param_boolean
| pymapd_param_date_string
| pymapd_param_date_datetime
| pymapd_param_date.

(** The registered signatures.  A tuple of types in a [register] call
    stands for one signature per member.  The list is in the dispatcher's
    resolution order, a more specific signature before a less specific one:
    [(DateScalar, datetime)] comes before [(DateScalar, date)], and
    [(TimestampScalar, datetime)] before [(TimestampScalar, date)]. *)
Definition signatures : list (param_class * value_class * handler) := [
  (C_StructScalar, T_OrderedDict, pymapd_param_struct);
  (C_ArrayValue, T_list, pymapd_param_array);
  (C_TimestampScalar, T_str, pymapd_param_timestamp);
  (C_TimestampScalar, T_datetime, pymapd_param_timestamp);
  (C_TimestampScalar, T_date, pymapd_param_timestamp);
  (C_StringScalar, T_str, pymapd_param_string);
  (C_IntegerScalar, T_int, pymapd_param_integer);
  (C_FloatingScalar, T_float, pymapd_param_double);
  (C_BooleanScalar, T_bool, pymapd_param_boolean);
  (C_DateScalar, T_str, pymapd_param_date_string);
  (C_DateScalar, T_datetime, pymapd_param_date_datetime);
  (C_DateScalar, T_date, pymapd_param_date)
].

(** The first signature, in resolution order, that the argument classes
    match. *)
Definition resolve (pc : param_class) (vc : value_class) : option handler :=
  match
    List.find (fun sig => bool_decide (pc = sig.1.1) && issubclass vc sig.1.2)
              signatures
  with
  | Some sig => Some sig.2
  | None => None
  end.

Section Pandas.

(** [pd.Timestamp(value, tz=tz).to_pydatetime()], with [tz=None] when the
    keyword is not given. *)
Variable pd_Timestamp : py_value -> option Z -> result datetime.

(** The body of each registered function; [self] is the dispatcher, for
    the bodies that call [pymapd_param] again. *)
Definition run (h : handler)
    (self : param_expr -> py_value -> result query_parameter)
    (param : param_expr) (value : py_value) : result query_parameter :=
  match h, value with
  | pymapd_param_struct, VOrderedDict items =>
      field_params ←
        mapM (fun kv => p ← getitem param kv.1; self p kv.2) items;
      Ok (StructQueryParameter (param_name param) field_params)
  | pymapd_param_array, VList items =>
      match param with
      | ArrayValue _ value_type =>
          match _IBIS_TYPE_TO_DTYPE !! value_type with
          | None => Raise (UnsupportedBackendType ("array<" +:+ value_type +:+ ">"))
          | Some pymapd_type =>
              Ok (ArrayQueryParameter (param_name param) pymapd_type items)
          end
      | _ => Raise AssertionError
      end
  | pymapd_param_timestamp, _ =>
      _ ← assert (bool_decide (class_of param = C_TimestampScalar));
      timestamp_value ← pd_Timestamp value (Some UTC);
      Ok (ScalarQueryParameter (param_name param) "TIMESTAMP"
            (VDatetime timestamp_value))
  | pymapd_param_string, _ =>
      Ok (ScalarQueryParameter (param_name param) "STRING" value)
  | pymapd_param_integer, _ =>
      Ok (ScalarQueryParameter (param_name param) "INT64" value)
  | pymapd_param_double, _ =>
      Ok (ScalarQueryParameter (param_name param) "FLOAT64" value)
  | pymapd_param_boolean, _ =>
      Ok (ScalarQueryParameter (param_name param) "BOOL" value)
  | pymapd_param_date_string, _ =>
      ts ← pd_Timestamp value None;
      self param (VDate (date_of ts))
  | pymapd_param_date_datetime, VDatetime d =>
      self param (VDate (date_of d))
  | pymapd_param_date, _ =>
      Ok (ScalarQueryParameter (param_name param) "DATE" value)
  | _, _ => Raise (ValueError "handler called outside its signature")
  end.

(** [pymapd_param(param, value)].  [depth] bounds the nesting of calls to
    the dispatcher, as the interpreter's recursion limit does. *)
Fixpoint pymapd_param (depth : nat) (param : param_expr) (value : py_value)
  : result query_parameter :=
  match depth with
  | O => Raise (RuntimeError "maximum recursion depth exceeded")
  | S depth' =>
      match resolve (class_of param) (type_of value) with
      | Some h => run h (pymapd_param depth') param value
      | None =>
          Raise (NotImplementedError
                   "Could not find signature for pymapd_param")
      end
  end.

End Pandas.

(** Modelled from the spec: timestamp normalisation as [pd.Timestamp] does
    it for the values the binder passes.  A date is midnight of that day; a
    string goes through the parser [parse]; without [tz] the value is kept
    as it is; with [tz='UTC'] a naive value is read as UTC and an aware one
    is converted to UTC. *)
Definition pandas_Timestamp (parse : string -> result datetime)
    (value : py_value) (tz : option Z) : result datetime :=
  ts ← match value with
       | VStr s => parse s
       | VDatetime d => Ok d
       | VDate d => Ok (midnight d)
       | _ => Raise (ValueError "Cannot convert input to Timestamp")
       end;
  match tz with
  | None => Ok ts
  | Some _ =>
      match tzinfo ts with
      | None => Ok (localize_utc ts)
      | Some off => Ok (astimezone_utc ts off)
      end
  end.

(** A parser that knows no string format; enough where only dates and
    datetimes are bound. *)
Definition no_parse (s : string) : result datetime :=
  Raise (ValueError "could not convert string to Timestamp").

End Binder.

Import Binder.

(** ** Compilation entry points of [ibis/mapd/compiler.py] *)

Module Entry.

Section Compilation.

(** Expression trees, the nodes that receive aliases, and lowered queries
    are those of [ibis.expr] and [ibis.sql.compiler]. *)
Variable Expr : Type.
Variable Node : Type.
Variable Query : Type.
Context `{EqDecision Node}.

(** Context objects live in a store and are passed by reference. *)
Definition ref : Type := nat.

(** Modelled from the spec: the query context, with the flag that makes
    aliasing mandatory, the alias table in order of assignment, and the
    stack of parent contexts, the nearest first. *)
Record QueryContext : Type := {
  always_alias : bool;
  table_refs : list (Node * string);
  parents : list ref
}.

Definition store : Type := gmap ref QueryContext.

(** A computation over the store that may raise.  It may read and write
    any context of the store. *)
Definition M (A : Type) : Type := store -> result A * store.

Definition ret {A} (a : A) : M A := fun st => (Ok a, st).
Definition throw {A} (e : exn) : M A := fun st => (Raise e, st).
Definition bind {A B} (m : M A) (f : A -> M B) : M B :=
  fun st =>
    match m st with
    | (Ok a, st') => f a st'
    | (Raise e, st') => (Raise e, st')
    end.

(** [MapDDialect.make_context()]: a new context object, without parents. *)
Definition new_context : QueryContext :=
  {| always_alias := false; table_refs := []; parents := [] |}.

Definition make_context : M ref :=
  fun st => let r := fresh (dom st) in (Ok r, <[r := new_context]> st).

(** Run a function of the context object on the object behind a
    reference, writing the changed object back. *)
Definition with_context {A} (r : ref)
    (f : QueryContext -> result A * QueryContext) : M A :=
  fun st =>
    match st !! r with
    | None => (Raise (ValueError "dangling context"), st)
    | Some ctx => let '(a, ctx') := f ctx in (a, <[r := ctx']> st)
    end.

(** Modelled from the spec: the alias a context itself records for a
    node. *)
Definition own_alias (n : Node) (ctx : QueryContext) : option string :=
  match List.find (fun entry => bool_decide (entry.1 = n)) (table_refs ctx) with
  | Some entry => Some entry.2
  | None => None
  end.

(** Modelled from the spec: resolution reaches outward.  The alias of a
    node is the one the context records, or else the one recorded by the
    nearest parent that has one. *)
Fixpoint outer_alias (n : Node) (st : store) (rs : list ref)
  : option string :=
  match rs with
  | [] => None
  | r :: rs' =>
      match st !! r ≫= own_alias n with
      | Some a => Some a
      | None => outer_alias n st rs'
      end
  end.

Definition resolve_alias (n : Node) (st : store) (ctx : QueryContext)
  : option string :=
  match own_alias n ctx with
  | Some a => Some a
  | None => outer_alias n st (parents ctx)
  end.

(** Modelled from the spec: the aliases in use where a context assigns
    one, those assigned in the context and in its parents. *)
Definition assigned_in (st : store) (r : ref) : nat :=
  match st !! r with
  | Some ctx => length (table_refs ctx)
  | None => 0
  end.

Definition aliases_in_use (st : store) (ctx : QueryContext) : nat :=
  length (table_refs ctx) + sum_list (map (assigned_in st) (parents ctx)).

(** Modelled from the spec: [alias_for].  The first call for a node
    assigns the next unused alias [t0], [t1], ... and records it; a later
    call for the same node returns the recorded alias.  The aliases of the
    parents count as used, so that an alias assigned in a child does not
    clash with theirs. *)
Definition alias_for (n : Node) (c : ref) : M string :=
  fun st =>
    match st !! c with
    | None => (Raise (ValueError "dangling context"), st)
    | Some ctx =>
        match own_alias n ctx with
        | Some a => (Ok a, st)
        | None =>
            let a := "t" +:+ pretty (aliases_in_use st ctx) in
            (Ok a,
             <[c := {| always_alias := always_alias ctx;
                       table_refs := table_refs ctx ++ [(n, a)];
                       parents := parents ctx |}]> st)
        end
    end.

(** Modelled from the spec: [push] creates a child context, whose parents
    are the given context and its parents; [pop] destroys one. *)
Definition push (c : ref) : M ref :=
  fun st =>
    match st !! c with
    | None => (Raise (ValueError "dangling context"), st)
    | Some ctx =>
        let r := fresh (dom st) in
        (Ok r,
         <[r := {| always_alias := always_alias ctx;
                   table_refs := [];
                   parents := c :: parents ctx |}]> st)
    end.

Definition pop (r : ref) : M unit :=
  fun st => (Ok tt, delete r st).

(** The query builder and the serialisation of a lowered query, both of
    [ibis.sql.compiler]: computations over the store, given their argument
    and a reference to the context to work with. *)
Variable builder_get_result : Expr -> ref -> M (list Query).
Variable query_compile : Query -> ref -> M string.

Definition assert_not_None {A} (o : option A) : M A :=
  match o with
  | Some a => ret a
  | None => throw AssertionError
  end.

Definition build_ast (expr : Expr) (context : option ref)
  : M (list Query) :=
  bind (assert_not_None context) (fun c =>
  builder_get_result expr c).

Definition _get_query (expr : Expr) (context : option ref)
  : M (Query * ref) :=
  bind (assert_not_None context) (fun c =>
  bind (build_ast expr context) (fun queries =>
  match queries with
  | [] => throw IndexError
  | query :: _ => ret (query, c)
  end)).

(** [to_sql(expr, context=None)].  The compiled query refers to the
    context it was built with. *)
Definition to_sql (expr : Expr) (context : option ref) : M string :=
  bind (match context with
        | None => bind make_context (fun c => ret (Some c))
        | Some c => ret (Some c)
        end) (fun context =>
  bind (assert_not_None context) (fun _ =>
  bind (_get_query expr context) (fun '(query, c) =>
  query_compile query c))).

(** [ctx.always_alias = False] *)
Definition clear_always_alias (ctx : QueryContext) : QueryContext :=
  {| always_alias := false;
     table_refs := table_refs ctx;
     parents := parents ctx |}.

(** [MapDQueryContext._to_sql] *)
Definition _to_sql (expr : Expr) (ctx : ref) : M string :=
  bind (with_context ctx (fun c => (Ok tt, clear_always_alias c)))
       (fun _ => to_sql expr (Some ctx)).

End Compilation.

End Entry.

(** ** Definitions used to state the properties *)

Module Notions.

(** Modelled from the spec: a translator small enough for examples.  A
    column reference renders as its name, an integer literal in decimal, a
    comparison infix; a name does not change the translation. *)
Definition comparison_symbol (k : comparison) : string :=
  match k with
  | Equals => "="
  | NotEquals => "!="
  | Less => "<"
  | LessEqual => "<="
  | Greater => ">"
  | GreaterEqual => ">="
  end.

Fixpoint translate_expr (e : expr) : result string :=
  match e with
  | TableColumn n _ => Ok n
  | Literal (LInt i) => Ok (str_int i)
  | Comparison k l r =>
      l' ← translate_expr l;
      r' ← translate_expr r;
      Ok (l' +:+ " " +:+ comparison_symbol k +:+ " " +:+ r')
  | Named e' _ => translate_expr e'
  | _ => Raise (TranslationError "No translation rule for the operation")
  end.

(** *** Join predicates *)

Definition non_equality_error : exn :=
  TranslationError "Non-equality join predicates are not supported".

Definition name_mismatch_error : exn :=
  TranslationError "Joining on different column names is not supported".

Section Names.

Variable get_name : expr -> result string.

Definition is_equality (p : expr) : Prop :=
  exists l r, op p = Comparison Equals l r.

(** [c] is the column two relations share under predicate [p]: [p] is an
    [Equals] node whose two sides both carry the name [c]. *)
Definition shared_column (p : expr) (c : string) : Prop :=
  exists l r,
    op p = Comparison Equals l r /\ get_name l = Ok c /\ get_name r = Ok c.

(** A predicate that validation lets through. *)
Definition same_named_equality (p : expr) : Prop :=
  exists c, shared_column p c.

End Names.

(** *** The flattened join tree *)

(** The flattening of a join tree in the words of the spec: the anchor is
    the leftmost leaf; every join node on the left spine contributes one
    step, the steps of its left child first. *)
Fixpoint anchor_of (e : table_expr) : table_expr :=
  match e with
  | Join _ l _ _ => anchor_of l
  | _ => e
  end.

Fixpoint join_steps (e : table_expr)
  : list (join_kind * table_expr * list expr) :=
  match e with
  | Join kind l r predicates => join_steps l ++ [(kind, r, predicates)]
  | _ => []
  end.

Section Rendering.

Variable get_name : expr -> result string.
Variable _format_table : table_expr -> result string.
Variable util_indent : string -> nat -> string.
Variable self_indent : nat.

(** The text of one join step as the code writes it: the keyword line one
    level in and, when there are columns, the USING line two levels in. *)
Definition step_text (keyword table : string) (columns : list string)
  : string :=
  nl +:+ util_indent (keyword +:+ " " +:+ table) self_indent +:+
  match columns with
  | [] => ""
  | _ :: _ =>
      nl +:+ util_indent ("USING " +:+ join ", " columns) (self_indent * 2)
  end.

(** The text of one join step as the spec words it, with the column list
    in parentheses. *)
Definition spec_step_text (keyword table : string) (columns : list string)
  : string :=
  nl +:+ util_indent (keyword +:+ " " +:+ table) self_indent +:+
  match columns with
  | [] => ""
  | _ :: _ =>
      nl +:+ util_indent ("USING (" +:+ join ", " columns +:+ ")")
                         (self_indent * 2)
  end.

(** [text] is the rendering of one step of the flattened tree. *)
Definition renders_step (step : join_kind * table_expr * list expr)
    (text : string) : Prop :=
  exists keyword table columns,
    _join_names step.1.1 = Some keyword /\
    _format_table step.1.2 = Ok table /\
    Forall2 (shared_column get_name) step.2 columns /\
    text = step_text keyword table columns.

(** The FROM text as the spec words it: the anchor table, then for each
    join step its keyword line and, when it has predicates, its
    parenthesised USING line. *)
Definition spec_from_clause (e : table_expr) : result string :=
  anchor ← _format_table (anchor_of e);
  texts ← mapM (fun step : join_kind * table_expr * list expr =>
                  keyword ← _get_join_type step.1.1;
                  table ← _format_table step.1.2;
                  columns ← mapM (_format_predicate get_name) step.2;
                  Ok (spec_step_text keyword table columns))
               (join_steps e);
  Ok (anchor +:+ String.concat "" texts).

(** The first phase of [get_result], for a join and for a leaf alike. *)
Definition unravel (e : table_expr) (self : formatter) : result formatter :=
  match e with
  | Join _ _ _ _ => _walk_join_tree get_name _format_table e self
  | _ => t ← _format_table e; Ok (append_table self t)
  end.

(** A step as the walk records it: keyword, table text, predicates. *)
Definition recorded (step : join_kind * table_expr * list expr)
    (done : string * string * list expr) : Prop :=
  _join_names step.1.1 = Some done.1.1 /\
  _format_table step.1.2 = Ok done.1.2 /\
  done.2 = step.2 /\
  _validate_join_predicates get_name step.2 = Ok tt.

End Rendering.

(** *** Types and schemas *)

(** The type tags that the tables of [client.py] know, and RECORD. *)
Definition known_tags : list string := [
  "INTEGER"; "FLOAT"; "BOOLEAN";
  "INT64"; "FLOAT64"; "BOOL"; "STRING"; "DATE"; "DATETIME"; "TIME";
  "TIMESTAMP"; "BYTES";
  "RECORD"
].

(** The declared columns of a table: each field's name with its
    discovered type. *)
Definition declared_columns (dt_Array : dtype -> result dtype)
    (dt_Struct : list string -> list dtype -> result dtype)
    (table : BackendTable) : result (list (string * dtype)) :=
  mapM (fun el => t ← _discover_type dt_Array dt_Struct el;
                  Ok (field_name el, t))
       (schema table).

(** *** Parameters *)

(** The shapes a timestamp placeholder is registered for. *)
Definition timestamp_like (value : py_value) : Prop :=
  match value with
  | VStr _ | VDate _ | VDatetime _ => True
  | _ => False
  end.

(** The binding of a date placeholder as the spec words it: the value goes
    through the timestamp normalisation of timestamp placeholders and is
    then cut down to its date. *)
Definition spec_date_binding
    (pd_Timestamp : py_value -> option Z -> result datetime)
    (name : string) (value : py_value) : result query_parameter :=
  ts ← pd_Timestamp value (Some UTC);
  Ok (ScalarQueryParameter name "DATE" (VDate (date_of ts))).

End Notions.

Import Notions.

(** ** Concrete inputs *)

Module Sample.

Definition select_with_limit (lim : option limit_spec) : Select :=
  {| table_set := Table "t"; group_by := []; having := []; limit := lim |}.

Definition column_a : expr := TableColumn "a" "t0".
Definition column_b : expr := TableColumn "b" "t1".

Definition a_positive : expr :=
  Comparison Greater column_a (Literal (LInt 0)).

(** A [Select] with a having predicate and nothing to group by, and one
    with both. *)
Definition having_only : Select :=
  {| table_set := Table "t0"; group_by := []; having := [a_positive];
     limit := None |}.

Definition grouped_having : Select :=
  {| table_set := Table "t0"; group_by := [column_a];
     having := [a_positive]; limit := None |}.

Definition a_less_b : expr := Comparison Less column_a column_b.
Definition a_equals_b : expr := Comparison Equals column_a column_b.
Definition a_equals_a : expr :=
  Comparison Equals column_a (TableColumn "a" "t1").

(** An equality between two named string expressions,
    [t0.a.lower().name('k') == t1.b.lower().name('k')]: no side is a
    column reference. *)
Definition lowered_a : expr := Named (Lowercase column_a) "k".
Definition lowered_b : expr := Named (Lowercase column_b) "k".
Definition lowered_equal : expr := Comparison Equals lowered_a lowered_b.

Definition one_join : table_expr :=
  Join InnerJoin (Table "t0") (Table "t1") [a_equals_a].

Definition two_joins : table_expr :=
  Join LeftJoin one_join (Table "t2") [].

(** Type constructors that accept whatever they are given. *)
Definition array_of (t : dtype) : result dtype := Ok (Array t).
Definition struct_of (names : list string) (types : list dtype)
  : result dtype := Ok (Struct names types).

Definition geometry_field : SchemaField :=
  Field "shape" "GEOMETRY" "NULLABLE" [].

Definition partitioned_table : BackendTable :=
  {| schema := [Field "n" "INTEGER" "NULLABLE" []];
     list_partitions := Ok ["20180101"] |}.

Definition unreachable_table : BackendTable :=
  {| schema := [Field "n" "INTEGER" "NULLABLE" []];
     list_partitions := Raise (RuntimeError "backend unavailable") |}.

(** Eight in the evening of 1 January 2018, five hours west of UTC, and
    the same instant in UTC. *)
Definition new_year_evening : datetime :=
  {| on_date := {| year := 2018; month := 1; day := 1 |};
     hour := 20; minute := 0; second := 0; microsecond := 0;
     tzinfo := Some (-18000)%Z |}.

Definition new_year_evening_utc : datetime :=
  {| on_date := {| year := 2018; month := 1; day := 2 |};
     hour := 1; minute := 0; second := 0; microsecond := 0;
     tzinfo := Some UTC |}.

End Sample.

Import Sample.

(** ** The builder and the serialisation on table sets *)

Module Lowering.

Import Entry.

#[export] Instance expr_eq_dec : EqDecision expr.
Proof. solve_decision. Defined.

#[export] Instance join_kind_eq_dec : EqDecision join_kind.
Proof. solve_decision. Defined.

#[export] Instance table_expr_eq_dec : EqDecision table_expr.
Proof. solve_decision. Defined.

(** Modelled from the spec: the nodes of a table set that receive an
    alias, in the fixed traversal order of the join-tree formatter: the
    anchor table, then the table of each join step. *)
Definition aliased_tables (e : table_expr) : list table_expr :=
  anchor_of e :: map (fun step => step.1.2) (join_steps e).

(** Modelled from the spec: the builder asks the context for the alias of
    each table in turn. *)
Fixpoint assign_aliases (tables : list table_expr) (c : ref)
  : M table_expr unit :=
  match tables with
  | [] => ret table_expr tt
  | t :: tables' =>
      bind table_expr (alias_for table_expr t c)
           (fun _ => assign_aliases tables' c)
  end.

Definition is_join (e : table_expr) : bool :=
  match e with
  | Join _ _ _ _ => true
  | Table _ => false
  end.

(** Modelled from the spec: the query builder of [ibis.sql.compiler] on an
    expression that is a table or a join of tables.  The expression is
    lowered to one [Select] over that table set.  Its tables get their
    aliases from the context when they are joined, or when the context
    makes aliasing mandatory. *)
Definition builder_get_result (e : table_expr) (c : ref)
  : M table_expr (list Select) :=
  fun st =>
    match st !! c with
    | None => (Raise (ValueError "dangling context"), st)
    | Some ctx =>
        bind table_expr
          (if is_join e || always_alias table_expr ctx
           then assign_aliases (aliased_tables e) c
           else ret table_expr tt)
          (fun _ =>
             ret table_expr
               [{| table_set := e; group_by := []; having := [];
                   limit := None |}])
          st
    end.

(** The text of an optional clause, as a list of lines to join. *)
Definition clause (text : option string) : list string :=
  match text with
  | Some t => [t]
  | None => []
  end.

Section Dialect.

Variable get_name : expr -> result string.
Variable _translate : expr -> result string.
Variable util_indent : string -> nat -> string.
Variable self_indent : nat.

(** Modelled from the spec: [_format_table] of [ibis.sql.compiler] on a
    table reference, its name followed by the alias the context resolves
    for it, if any.  Nested selects are not rendered. *)
Definition _format_table (aliases : table_expr -> option string)
    (t : table_expr) : result string :=
  match t with
  | Table name =>
      match aliases t with
      | Some a => Ok (name +:+ " " +:+ a)
      | None => Ok name
      end
  | Join _ _ _ _ => Raise (NotImplementedError "nested select")
  end.

(** Modelled from the spec: [Select.compile] of [ibis.sql.compiler].  The
    clauses come in the order projection, table set, group-by and having,
    limit; the projection is empty and renders as [SELECT *]; aliases are
    resolved through the context the query was built with. *)
Definition query_compile (q : Select) (c : ref) : M table_expr string :=
  fun st =>
    match st !! c with
    | None => (Raise (ValueError "dangling context"), st)
    | Some ctx =>
        let aliases := fun t => resolve_alias table_expr t st ctx in
        (from_frag ←
           get_result get_name (_format_table aliases) util_indent
                      self_indent (table_set q);
         groupby_frag ← format_group_by get_name _translate q;
         let limit_frag := format_limit q in
         Ok (join nl (["SELECT *"; "FROM " +:+ from_frag]
                      ++ clause groupby_frag ++ clause limit_frag)),
         st)
    end.

End Dialect.

(** *** What a context by itself determines *)

(** For a context without parents, the alias of a node and the context
    after the assignment. *)
Definition local_alias (n : table_expr) (ctx : QueryContext table_expr)
  : string * QueryContext table_expr :=
  match own_alias table_expr n ctx with
  | Some a => (a, ctx)
  | None =>
      let a := "t" +:+ pretty (length (table_refs table_expr ctx)) in
      (a, {| always_alias := always_alias table_expr ctx;
             table_refs := table_refs table_expr ctx ++ [(n, a)];
             parents := parents table_expr ctx |})
  end.




End Lowering.

Import Lowering.

(** ** Further functions of [ibis/mapd/client.py] *)

Module Naming.

(** The separator of qualified table names. *)
Definition dot : Ascii.ascii := Ascii.ascii_of_nat 46.

(** [text.split(sep)] for a one-character separator: the pieces between
    the occurrences of [sep], of which there is always at least one. *)
Fixpoint split_on (sep : Ascii.ascii) (text : string) : list string :=
  match text with
  | EmptyString => [EmptyString]
  | String c rest =>
      if Ascii.eqb c sep then EmptyString :: split_on sep rest
      else
        match split_on sep rest with
        | [] => [String c EmptyString]
        | piece :: pieces => String c piece :: pieces
        end
  end.

(** Truth value of an optional string: [None] and [''] are false. *)
Definition truthy_str (s : option string) : bool :=
  match s with
  | Some (String _ _) => true
  | _ => false
  end.

(** [a or b] *)
Definition or_else (a : option string) (b : string) : string :=
  match a with
  | Some (String c s) => String c s
  | _ => b
  end.

Definition _ensure_split (table_id : string) (dataset_id : option string)
  : result (string * option string) :=
  let split := split_on dot table_id in
  if (1 <? length split)%nat then
    _ ← assert (length split =? 2)%nat;
    if truthy_str dataset_id then
      Raise (ValueError
        "Can't pass a fully qualified table name *AND* a dataset_id")
    else
      match split with
      | [dataset_id; table_id] => Ok (table_id, Some dataset_id)
      | _ => Raise (ValueError "not enough values to unpack")
      end
  else Ok (table_id, dataset_id).

(** [MapDClient._fully_qualified_name]; [self_dataset_id] is the client's
    current dataset. *)
Definition _fully_qualified_name (self_dataset_id : string) (name : string)
    (database : option string) : string :=
  let dataset_id := or_else database self_dataset_id in
  dataset_id +:+ "." +:+ name.

End Naming.

Import Naming.

Module Discovery.

Section Datatypes.

Variable dt_Array : dtype -> result dtype.
Variable dt_Struct : list string -> list dtype -> result dtype.
Variable dt_dtype : SchemaField -> result dtype.

(** [pymapd_field_to_ibis_dtype]: as [_discover_type], with the fields of
    a record converted by [dt.dtype]. *)
Definition pymapd_field_to_ibis_dtype (field : SchemaField) : result dtype :=
  let typ := field_type field in
  ibis_type ←
    (if String.eqb typ "RECORD" then
       let fields := field_fields field in
       _ ← assert (truthy fields);
       let names := map field_name fields in
       ibis_types ← mapM dt_dtype fields;
       dt_Struct names ibis_types
     else
       let ibis_type := dict_get _LEGACY_TO_STANDARD typ typ in
       Ok (dict_get _DTYPE_TO_IBIS_TYPE ibis_type (Tag ibis_type)));
  if String.eqb (field_mode field) "REPEATED" then dt_Array ibis_type
  else Ok ibis_type.

End Datatypes.

End Discovery.

Import Discovery.

Module Execution.

Section Pandas.

Variable pd_Timestamp : py_value -> option Z -> result datetime.

(** The query parameters that [MapDClient._execute] hands to the backend:
    each placeholder of the dictionary bound with its value, in the order
    of the dictionary; no dictionary stands for an empty one. *)
Definition bind_query_parameters (depth : nat)
    (query_parameters : option (list (param_expr * py_value)))
  : result (list query_parameter) :=
  mapM (fun item => pymapd_param pd_Timestamp depth item.1 item.2)
       (default [] query_parameters).

End Pandas.

End Execution.

Import Execution.

(** ** Further notions *)

Module Notions2.

(** The number of separators in a text. *)
Fixpoint count_char (sep : Ascii.ascii) (text : string) : nat :=
  match text with
  | EmptyString => 0
  | String c rest =>
      (if Ascii.eqb c sep then 1 else 0) + count_char sep rest
  end.

Definition dots (text : string) : nat := count_char dot text.

(** The name and, for a scalar, the type tag and value of a bound
    parameter. *)
Definition bound_name (q : query_parameter) : string :=
  match q with
  | ScalarQueryParameter n _ _ => n
  | ArrayQueryParameter n _ _ => n
  | StructQueryParameter n _ => n
  end.

(** The placeholders that bind to one scalar, with the tag their rule
    writes. *)
Definition scalar_tag (p : param_expr) : option string :=
  match p with
  | TimestampScalar _ => Some "TIMESTAMP"
  | StringScalar _ => Some "STRING"
  | IntegerScalar _ => Some "INT64"
  | FloatingScalar _ => Some "FLOAT64"
  | BooleanScalar _ => Some "BOOL"
  | DateScalar _ => Some "DATE"
  | _ => None
  end.

(** The placeholders whose rule binds the value as it is. *)
Definition direct_scalar (p : param_expr) : bool :=
  match p with
  | StringScalar _ | IntegerScalar _ | FloatingScalar _ | BooleanScalar _ =>
      true
  | _ => false
  end.

(** The pairs of placeholder class and value class that some registered
    rule accepts. *)
Definition supported (pc : param_class) (vc : value_class) : bool :=
  match pc, vc with
  | C_StructScalar, T_OrderedDict => true
  | C_ArrayValue, T_list => true
  | C_TimestampScalar, (T_str | T_date | T_datetime) => true
  | C_StringScalar, T_str => true
  | C_IntegerScalar, (T_int | T_bool) => true
  | C_FloatingScalar, T_float => true
  | C_BooleanScalar, T_bool => true
  | C_DateScalar, (T_str | T_date | T_datetime) => true
  | _, _ => false
  end.

(** The element types an array placeholder can be bound for. *)
Definition array_element_types : list string :=
  ["string"; "int64"; "double"; "boolean"; "timestamp"; "date"].

(** The recursion-depth failure of the binder. *)
Definition depth_exceeded : exn :=
  RuntimeError "maximum recursion depth exceeded".

(** [dt.Array] around a discovered type when the mode of the field is
    REPEATED. *)
Definition wrap_mode (dt_Array : dtype -> result dtype) (mode : string)
    (t : dtype) : result dtype :=
  if String.eqb mode "REPEATED" then dt_Array t else Ok t.

(** A type constant, as opposed to a passed-through tag or a structured
    type. *)
Definition is_type_constant (t : dtype) : bool :=
  match t with
  | int64 | double | boolean | string_ | date_ | time_ | timestamp
  | binary => true
  | _ => false
  end.

End Notions2.

Import Notions2.

(** ** Further concrete inputs *)

Module Sample2.

(** A store that holds one context, with one alias assigned and aliasing
    mandatory. *)
Definition used_context : Entry.QueryContext table_expr :=
  {| Entry.always_alias := true;
     Entry.table_refs := [(Table "t9", "t0")];
     Entry.parents := [] |}.

Definition one_context_store : Entry.store table_expr :=
  <[7 := used_context]> ∅.

(** A context that has assigned two aliases. *)
Definition outer_context : Entry.QueryContext table_expr :=
  {| Entry.always_alias := false;
     Entry.table_refs := [(Table "u", "t0"); (Table "v", "t1")];
     Entry.parents := [] |}.

(** Flights joined to airports on the airport code. *)
Definition code_equal : expr :=
  Comparison Equals (TableColumn "code" "flights")
                    (TableColumn "code" "airports").

Definition flights_airports : table_expr :=
  Join InnerJoin (Table "flights") (Table "airports") [code_equal].

(** A select grouped by one column, without and with a having
    predicate. *)
Definition grouped_only : Select :=
  {| table_set := Table "t0"; group_by := [column_a]; having := [];
     limit := None |}.

End Sample2.

Import Sample2.

(** * Properties *)

(** ** General facts *)

Lemma append_cons (ch : Ascii.ascii) (a b : string) :
  String ch a +:+ b = String ch (a +:+ b).
Proof. reflexivity. Qed.

Lemma append_assoc (a b c : string) : (a +:+ b) +:+ c = a +:+ (b +:+ c).
Proof.
  induction a as [|ch a IH]; [reflexivity|].
  rewrite !append_cons. f_equal. exact IH.
Qed.

Lemma append_empty_r (a : string) : a +:+ "" = a.
Proof.
  induction a as [|ch a IH]; [reflexivity|].
  rewrite append_cons. f_equal. exact IH.
Qed.

Lemma concat_empty_app (xs ys : list string) :
  String.concat "" (xs ++ ys) = String.concat "" xs +:+ String.concat "" ys.
Proof.
  induction xs as [|x xs IH]; [reflexivity|].
  destruct xs as [|x' xs].
  - simpl. destruct ys; simpl; [now rewrite append_empty_r | reflexivity].
  - change (x +:+ String.concat "" ((x' :: xs) ++ ys)
            = (x +:+ String.concat "" (x' :: xs)) +:+ String.concat "" ys).
    rewrite IH. now rewrite append_assoc.
Qed.

Lemma mapM_cons {A B} (f : A -> result B) (x : A) (l : list A) :
  mapM f (x :: l) =
    match f x with
    | Ok y => match mapM f l with
              | Ok ys => Ok (y :: ys)
              | Raise e => Raise e
              end
    | Raise e => Raise e
    end.
Proof. reflexivity. Qed.

Lemma mapM_Ok {A B} (f : A -> result B) (l : list A) (k : list B) :
  mapM f l = Ok k <-> Forall2 (fun x y => f x = Ok y) l k.
Proof.
  revert k. induction l as [|x l IH]; intros k.
  - split; [intros [= <-]; constructor | inversion 1; reflexivity].
  - rewrite mapM_cons. split.
    + destruct (f x) as [y|e] eqn:Hx; [|discriminate].
      destruct (mapM f l) as [ys|e] eqn:Hl; [|discriminate].
      intros [= <-]. constructor; [assumption | now apply IH].
    + inversion 1 as [|? y ? ys Hx Hl]; subst.
      apply IH in Hl. now rewrite Hx, Hl.
Qed.

Lemma truthy_nonempty {A} (xs : list A) : truthy xs = true <-> xs <> [].
Proof. destruct xs; simpl; split; congruence. Qed.

(** ** LIMIT *)

Example limit_5 :
  format_limit (select_with_limit
    (Some {| limit_n := 5; limit_offset := None |})) = Some "LIMIT 5".
Proof. reflexivity. Qed.

Example limit_5_offset_10 :
  format_limit (select_with_limit
    (Some {| limit_n := 5; limit_offset := Some 10%Z |})) = Some "LIMIT 5, 10".
Proof. reflexivity. Qed.

Example limit_5_offset_0 :
  format_limit (select_with_limit
    (Some {| limit_n := 5; limit_offset := Some 0%Z |})) = Some "LIMIT 5".
Proof. reflexivity. Qed.

(** C5.  For every [Select], [format_limit] gives no clause when no limit
    is set, exactly [LIMIT <n>] when the offset is absent or zero, and
    [LIMIT <n>, <offset>] when the offset is not zero. *)
Theorem format_limit_clause (self : Select) :
  (limit self = None -> format_limit self = None) /\
  (forall n offset,
     limit self = Some {| limit_n := n; limit_offset := offset |} ->
     offset = None \/ offset = Some 0%Z ->
     format_limit self = Some ("LIMIT " +:+ str_int n)) /\
  (forall n offset,
     limit self = Some {| limit_n := n; limit_offset := Some offset |} ->
     offset <> 0%Z ->
     format_limit self =
       Some ("LIMIT " +:+ str_int n +:+ ", " +:+ str_int offset)).
Proof.
  unfold format_limit. split; [|split].
  - intros ->. reflexivity.
  - intros n offset -> [-> | ->]; reflexivity.
  - intros n offset -> Hne. cbn.
    apply Z.eqb_neq in Hne. rewrite Hne. cbn.
    unfold write, getvalue, new_buffer. f_equal.
Qed.

Lemma format_limit_clause_witness :
  format_limit (select_with_limit
    (Some {| limit_n := 5; limit_offset := Some 10%Z |}))
  = Some ("LIMIT " +:+ str_int 5 +:+ ", " +:+ str_int 10).
Proof.
  apply (proj2 (proj2 (format_limit_clause
           (select_with_limit
              (Some {| limit_n := 5; limit_offset := Some 10%Z |})))) 5%Z 10%Z).
  - reflexivity.
  - lia.
Defined.

(** ** GROUP BY and HAVING *)

Section GroupBy.

Variable get_name : expr -> result string.
Variable _translate : expr -> result string.

(** C1 (as the code has it).  A [Select] whose group-by list is empty
    serialises neither a GROUP BY nor a HAVING clause: [format_group_by]
    returns [None] whatever the having list holds.  With a non-empty
    group-by list and a non-empty having list it returns the GROUP BY line
    followed by the HAVING line, the translated predicates joined with
    [" AND "]. *)
Theorem format_group_by_needs_group_by (self : Select) :
  (group_by self = [] ->
   format_group_by get_name _translate self = Ok None) /\
  (forall columns trans_exprs,
     group_by self <> [] -> having self <> [] ->
     mapM get_name (group_by self) = Ok columns ->
     mapM _translate (having self) = Ok trans_exprs ->
     format_group_by get_name _translate self =
       Ok (Some ("GROUP BY " +:+ join ", " columns +:+ nl +:+
                 "HAVING " +:+ join " AND " trans_exprs))).
Proof.
  unfold format_group_by. split.
  - intros ->. reflexivity.
  - intros columns trans_exprs Hg Hh Hc Ht.
    apply truthy_nonempty in Hg. apply truthy_nonempty in Hh.
    rewrite Hg, Hh, Hc, Ht. reflexivity.
Qed.

End GroupBy.

Lemma format_group_by_needs_group_by_witness :
  format_group_by resolve_name translate_expr having_only = Ok None /\
  format_group_by resolve_name translate_expr grouped_having =
    Ok (Some ("GROUP BY " +:+ join ", " ["a"] +:+ nl +:+
              "HAVING " +:+ join " AND " ["a > 0"])).
Proof.
  split.
  - apply (proj1 (format_group_by_needs_group_by
                    resolve_name translate_expr having_only)).
    reflexivity.
  - apply (proj2 (format_group_by_needs_group_by
                    resolve_name translate_expr grouped_having)).
    + discriminate.
    + discriminate.
    + reflexivity.
    + reflexivity.
Defined.

(** C1 (as the claim words it) fails: with an empty group-by list and one
    having predicate no HAVING clause is emitted. *)
Lemma having_without_group_by_not_emitted :
  format_group_by resolve_name translate_expr having_only = Ok None /\
  format_group_by resolve_name translate_expr having_only
    <> Ok (Some ("HAVING " +:+ join " AND " ["a > 0"])).
Proof. split; [reflexivity | discriminate]. Qed.

(** ** Join predicates *)

Section Validation.

Variable get_name : expr -> result string.

#[local] Abbreviation validate := (_validate_join_predicates get_name).
#[local] Abbreviation accepted := (same_named_equality get_name).

Lemma validate_cons_same_named (p : expr) (rest : list expr) :
  accepted p -> validate (p :: rest) = validate rest.
Proof.
  intros (n & l & r & Hop & Hl & Hr). cbn. rewrite Hop. cbn.
  rewrite Hl. cbn. rewrite Hr. cbn. now rewrite String.eqb_refl.
Qed.

Lemma validate_app_same_named (pre rest : list expr) :
  Forall accepted pre -> validate (pre ++ rest) = validate rest.
Proof.
  induction 1 as [|p pre Hp _ IH]; [reflexivity|].
  rewrite <- app_comm_cons, validate_cons_same_named; assumption.
Qed.

Lemma validate_Ok_inv (preds : list expr) :
  validate preds = Ok tt -> Forall accepted preds.
Proof.
  induction preds as [|p preds IH]; [constructor|].
  cbn. destruct (op p) as [| |k l r| | | | | |] eqn:Hop; try discriminate.
  destruct k; try discriminate.
  destruct (get_name l) as [a|] eqn:Hl; cbn; [|discriminate].
  destruct (get_name r) as [b|] eqn:Hr; cbn; [|discriminate].
  destruct (String.eqb a b) eqn:Hab; cbn; [|discriminate].
  apply String.eqb_eq in Hab. subst b. intros H.
  constructor; [|now apply IH].
  exists a, l, r. auto.
Qed.

(** C3 (as the code has it).  Validation walks the predicates in order and
    stops at the first one it rejects.  It passes exactly the lists made of
    equalities whose two sides carry the same name; it raises the
    non-equality error when the first rejected predicate is not an
    [Equals] node, and the name-mismatch error when the first rejected
    predicate is an equality whose sides are named differently.  It looks
    at no join type, and does not ask the sides to be column references. *)
Theorem validate_join_predicates_first_rejected :
  (forall preds,
     validate preds = Ok tt <-> Forall accepted preds) /\
  (forall pre p rest,
     Forall accepted pre -> ~ is_equality p ->
     validate (pre ++ p :: rest) = Raise non_equality_error) /\
  (forall pre p rest l r a b,
     Forall accepted pre ->
     op p = Comparison Equals l r ->
     get_name l = Ok a -> get_name r = Ok b -> a <> b ->
     validate (pre ++ p :: rest) = Raise name_mismatch_error).
Proof.
  split; [|split].
  - intros preds. split; [apply validate_Ok_inv|].
    intros H. rewrite <- (app_nil_r preds).
    now rewrite validate_app_same_named.
  - intros pre p rest Hpre Hne. rewrite validate_app_same_named by assumption.
    cbn. destruct (op p) as [| |k l r| | | | | |] eqn:Hop; try reflexivity.
    destruct k; try reflexivity.
    exfalso. apply Hne. now exists l, r.
  - intros pre p rest l r a b Hpre Hop Hl Hr Hab.
    rewrite validate_app_same_named by assumption.
    cbn. rewrite Hop. cbn. rewrite Hl. cbn. rewrite Hr. cbn.
    apply String.eqb_neq in Hab. now rewrite Hab.
Qed.

End Validation.

Lemma validate_join_predicates_first_rejected_witness :
  _validate_join_predicates resolve_name [a_equals_a] = Ok tt /\
  _validate_join_predicates resolve_name [a_equals_a; a_less_b; a_equals_b]
    = Raise non_equality_error /\
  _validate_join_predicates resolve_name [a_equals_a; a_equals_b; a_less_b]
    = Raise name_mismatch_error.
Proof.
  assert (Hsame : Forall (same_named_equality resolve_name) [a_equals_a]).
  { constructor; [|constructor].
    exists "a", column_a, (TableColumn "a" "t1"). repeat split. }
  destruct (validate_join_predicates_first_rejected resolve_name)
    as (Hpass & Hnon & Hmis).
  split; [|split].
  - apply Hpass. exact Hsame.
  - apply (Hnon [a_equals_a] a_less_b [a_equals_b] Hsame).
    intros (l & r & H). discriminate H.
  - apply (Hmis [a_equals_a] a_equals_b [a_less_b] column_a column_b "a" "b" Hsame);
      [reflexivity | reflexivity | reflexivity | discriminate].
Defined.

(** C3 (as the claim words it) fails.  The equality
    [t0.a.lower().name('k') == t1.b.lower().name('k')] is not an equality
    between two column references: each side is a lower-casing that was
    given a name.  Validation compares the two names and passes.  Besides,
    a list that holds an equality with differently named sides raises the
    non-equality error, not the name-mismatch one, when a non-equality
    comes first. *)
Lemma validate_join_predicates_counterexample :
  (_validate_join_predicates resolve_name [lowered_equal] = Ok tt /\
   op lowered_equal = Comparison Equals lowered_a lowered_b /\
   op lowered_a = Lowercase column_a /\
   op lowered_b = Lowercase column_b) /\
  (_validate_join_predicates resolve_name [a_less_b; a_equals_b]
     = Raise non_equality_error /\
   _validate_join_predicates resolve_name [a_less_b; a_equals_b]
     <> Raise name_mismatch_error).
Proof.
  split; [|split; [reflexivity | discriminate]].
  split; [reflexivity | split; [reflexivity | split; reflexivity]].
Qed.

(** ** String expressions *)

Lemma equals_refl (e : expr) : equals e e = true.
Proof.
  induction e; cbn;
    rewrite ?String.eqb_refl, ?IHe, ?IHe1, ?IHe2, ?IHe3;
    unfold literal_eqb, comparison_eqb;
    rewrite ?bool_decide_eq_true_2 by reflexivity; reflexivity.
Qed.

Lemma equals_eq (a b : expr) : equals a b = true <-> a = b.
Proof.
  split; [|intros ->; apply equals_refl].
  revert b. induction a; intros [] H; cbn in H; try discriminate;
    unfold literal_eqb, comparison_eqb in H;
    repeat match goal with
    | H : _ && _ = true |- _ => apply andb_true_iff in H; destruct H
    | H : String.eqb _ _ = true |- _ => apply String.eqb_eq in H; subst
    | H : bool_decide _ = true |- _ => apply bool_decide_eq_true_1 in H; subst
    | IH : forall b, equals ?a b = true -> ?a = b, H : equals ?a _ = true |- _ =>
        apply IH in H; subst
    end; reflexivity.
Qed.

(** C9.  For every expression [s] and integer [n], [left(s, n)] and
    [substr(s, 0, n)] are the same tree under the structural comparison
    [equals]. *)
Theorem left_equals_substr (s : expr) (n : Z) :
  equals (left s n) (substr s 0 n) = true.
Proof. apply equals_eq. reflexivity. Qed.

Example left_right_test :
  let g := TableColumn "g" "alltypes" in
  equals (left g 5) (substr g 0 5) = true /\
  right g 5 = StrRight g (Literal (LInt 5)) /\
  equals (left g 5) (substr g 1 5) = false.
Proof. repeat split. Qed.

(** ** The FROM clause *)

Section FromClause.

Variable get_name : expr -> result string.
Variable _format_table : table_expr -> result string.
Variable util_indent : string -> nat -> string.
Variable self_indent : nat.

#[local] Abbreviation validate := (_validate_join_predicates get_name).
#[local] Abbreviation walk := (_walk_join_tree get_name _format_table).
#[local] Abbreviation flatten := (unravel get_name _format_table).
#[local] Abbreviation text_of := (step_text util_indent self_indent).
#[local] Abbreviation format_predicate := (_format_predicate get_name).

(** A step written by the loop: its columns are the names of its
    predicates, its text the step text over them. *)
Let written (done : string * string * list expr) (text : string) : Prop :=
  exists columns,
    mapM format_predicate done.2 = Ok columns /\
    text = text_of done.1.1 done.1.2 columns.

Lemma walk_Join (kind : join_kind) (l r : table_expr) (preds : list expr)
    (self : formatter) :
  walk (Join kind l r preds) self =
    (_ ← validate preds;
     jname ← _get_join_type kind;
     self ← flatten l self;
     t ← _format_table r;
     Ok (append_join self jname t preds)).
Proof. destruct l; reflexivity. Qed.

Lemma unravel_recorded (e : table_expr) :
  forall self self',
    flatten e self = Ok self' ->
    exists anchor steps,
      _format_table (anchor_of e) = Ok anchor /\
      Forall2 (recorded get_name _format_table) (join_steps e) steps /\
      join_tables self' =
        join_tables self ++ anchor :: map (fun s => s.1.2) steps /\
      join_types self' = join_types self ++ map (fun s => s.1.1) steps /\
      join_predicates self' = join_predicates self ++ map snd steps.
Proof.
  induction e as [name | kind l IHl r _ preds]; intros self self' H.
  - cbn in H. destruct (_format_table (Table name)) as [t|] eqn:Ht;
      [|discriminate H].
    injection H as <-. exists t, []. cbn.
    rewrite Ht, !app_nil_r. repeat split. constructor.
  - unfold unravel in H. rewrite walk_Join in H.
    destruct (validate preds) as [[]|] eqn:Hv; [|discriminate H].
    cbn in H. unfold _get_join_type in H.
    destruct (_join_names kind) as [kw|] eqn:Hkw; [|discriminate H].
    cbn in H.
    destruct (flatten l self) as [mid|] eqn:Hl; [|discriminate H].
    cbn in H.
    destruct (_format_table r) as [t|] eqn:Hr; [|discriminate H].
    injection H as <-.
    destruct (IHl _ _ Hl) as (anchor & steps & Ha & Hs & Ht & Hty & Hp).
    exists anchor, (steps ++ [(kw, t, preds)]). cbn.
    rewrite !map_app, Ht, Hty, Hp. cbn.
    repeat split; try assumption.
    + apply Forall2_app; [assumption|].
      constructor; [|constructor]. repeat split; assumption.
    + now rewrite <- app_assoc.
    + now rewrite <- app_assoc.
    + now rewrite <- app_assoc.
Qed.

Lemma validated_columns (preds : list expr) :
  validate preds = Ok tt ->
  exists columns,
    Forall2 (shared_column get_name) preds columns /\
    mapM format_predicate preds = Ok columns.
Proof.
  intros H. apply validate_Ok_inv in H.
  induction H as [|p preds (n & l & r & Hop & Hl & Hr) _ (cols & Hcols & Hfmt)].
  - exists []. split; [constructor | reflexivity].
  - exists (n :: cols). split.
    + constructor; [now exists l, r | assumption].
    + apply mapM_Ok. constructor; [|now apply mapM_Ok].
      unfold _format_predicate. rewrite Hop. cbn. exact Hl.
Qed.

Lemma zip3_recorded (steps : list (string * string * list expr)) :
  zip3 (map (fun s => s.1.1) steps) (map (fun s => s.1.2) steps)
       (map snd steps) = steps.
Proof.
  induction steps as [|[[kw t] ps] steps IH]; [reflexivity|].
  cbn. now rewrite IH.
Qed.

Lemma write_joins_text (steps : list (string * string * list expr)) :
  forall buf texts,
    Forall2 written steps texts ->
    write_joins get_name util_indent self_indent buf steps
      = Ok (buf +:+ String.concat "" texts).
Proof.
  induction steps as [|[[kw t] ps] steps IH]; intros buf texts H.
  - inversion H; subst. cbn. now rewrite append_empty_r.
  - inversion H as [|? text ? texts' (cols & Hcols & ->) Hrest]; subst.
    cbn [write_joins]. cbn in Hcols.
    assert (Hlen : length ps = length cols).
    { apply mapM_Ok in Hcols. eapply Forall2_length; eassumption. }
    assert (Hone : forall rest,
              String.concat "" (text_of kw t cols :: rest)
              = text_of kw t cols +:+ String.concat "" rest).
    { intros rest. apply (concat_empty_app [_] rest). }
    rewrite Hone. destruct ps as [|p ps].
    + destruct cols; [|discriminate Hlen]. cbn.
      rewrite (IH _ _ Hrest). unfold write, step_text. cbn. f_equal.
      rewrite !append_assoc. reflexivity.
    + destruct cols as [|c cols]; [discriminate Hlen|].
      change (0 <? length (p :: ps))%nat with true. cbv iota.
      rewrite Hcols. cbn [mbind result_bind].
      rewrite (IH _ _ Hrest). unfold write, step_text. f_equal.
      now rewrite !append_assoc.
Qed.

Lemma recorded_written (todo : list (join_kind * table_expr * list expr))
    (steps : list (string * string * list expr)) :
  Forall2 (recorded get_name _format_table) todo steps ->
  exists texts,
    Forall2 (renders_step get_name _format_table util_indent self_indent)
            todo texts /\
    Forall2 written steps texts.
Proof.
  induction 1 as [|step done todo steps (Hk & Hf & Hp & Hv) _ IH].
  - exists []. split; constructor.
  - destruct IH as (texts & IH1 & IH2).
    destruct (validated_columns _ Hv) as (cols & Hcols & Hfmt).
    exists (text_of done.1.1 done.1.2 cols :: texts). split.
    + constructor; [|assumption].
      exists done.1.1, done.1.2, cols. repeat split; assumption.
    + constructor; [|assumption].
      exists cols. rewrite Hp. split; [assumption | reflexivity].
Qed.

(** C2 (as the code has it).  Whenever the table-set formatter accepts a
    join tree, the text it returns is the anchor table followed by one
    piece per join step, in order.  The piece of a step is a new line with
    [<JOIN-KEYWORD> <table>] indented one level and, when the step has
    predicates, a new line with [USING <cols>] indented two levels, where
    [<cols>] are the shared column names in predicate order joined with
    [", "], with no parentheses around them. *)
Theorem get_result_from_clause (e : table_expr) (text : string) :
  get_result get_name _format_table util_indent self_indent e = Ok text ->
  exists anchor texts,
    _format_table (anchor_of e) = Ok anchor /\
    Forall2 (renders_step get_name _format_table util_indent self_indent)
            (join_steps e) texts /\
    text = anchor +:+ String.concat "" texts.
Proof.
  unfold get_result. fold (flatten e new_formatter). intros H.
  destruct (flatten e new_formatter) as [self|] eqn:Hu; [|discriminate H].
  destruct (unravel_recorded _ _ _ Hu)
    as (anchor & steps & Ha & Hs & Ht & Hty & Hp).
  cbn in H, Ht, Hty, Hp. rewrite Ht, Hty, Hp, zip3_recorded in H.
  destruct (recorded_written _ _ Hs) as (texts & Hren & Hdone).
  rewrite (write_joins_text _ _ _ Hdone) in H. cbn in H.
  injection H as <-. exists anchor, texts. repeat split; assumption.
Qed.

End FromClause.

Lemma get_result_from_clause_witness :
  exists anchor texts,
    format_table_name (anchor_of two_joins) = Ok anchor /\
    Forall2 (renders_step resolve_name format_table_name indent 2)
            (join_steps two_joins) texts /\
    "t0" +:+ nl +:+ "  JOIN t1" +:+ nl +:+ "    USING a" +:+ nl +:+
    "  LEFT JOIN t2" = anchor +:+ String.concat "" texts.
Proof.
  apply (get_result_from_clause resolve_name format_table_name indent 2
           two_joins).
  reflexivity.
Defined.

(** C2 (as the claim words it) fails: for an inner join of two tables on a
    column [a] the code writes [USING a], the claim [USING (a)]. *)
Lemma get_result_using_counterexample :
  get_result resolve_name format_table_name indent 2 one_join
    = Ok ("t0" +:+ nl +:+ "  JOIN t1" +:+ nl +:+ "    USING a") /\
  spec_from_clause resolve_name format_table_name indent 2 one_join
    = Ok ("t0" +:+ nl +:+ "  JOIN t1" +:+ nl +:+ "    USING (a)") /\
  get_result resolve_name format_table_name indent 2 one_join
    <> spec_from_clause resolve_name format_table_name indent 2 one_join.
Proof. split; [reflexivity | split; [reflexivity | discriminate]]. Qed.

(** ** Type discovery *)

Section Discovery.

Variable dt_Array : dtype -> result dtype.
Variable dt_Struct : list string -> list dtype -> result dtype.

Lemma legacy_lookup_unknown (typ : string) :
  typ ∉ known_tags -> _LEGACY_TO_STANDARD !! typ = None.
Proof.
  unfold known_tags. rewrite !not_elem_of_cons. intros H.
  unfold _LEGACY_TO_STANDARD. cbn [list_to_map foldr uncurry fst snd].
  rewrite !lookup_insert_ne by (intros E; subst typ; intuition congruence).
  apply lookup_empty.
Qed.

Lemma dtype_lookup_unknown (typ : string) :
  typ ∉ known_tags -> _DTYPE_TO_IBIS_TYPE !! typ = None.
Proof.
  unfold known_tags. rewrite !not_elem_of_cons. intros H.
  unfold _DTYPE_TO_IBIS_TYPE. cbn [list_to_map foldr uncurry fst snd].
  rewrite !lookup_insert_ne by (intros E; subst typ; intuition congruence).
  apply lookup_empty.
Qed.

(** C4 (as the code has it).  For a field whose type tag is none of the
    known tags, [_discover_type] raises nothing of its own: the tag is
    passed through unchanged as the result, and handed unchanged to
    [dt.Array] when the field's mode is REPEATED. *)
Theorem discover_type_unknown_tag (name typ mode : string)
    (fields : list SchemaField) :
  typ ∉ known_tags ->
  _discover_type dt_Array dt_Struct (Field name typ mode fields) =
    if String.eqb mode "REPEATED" then dt_Array (Tag typ) else Ok (Tag typ).
Proof.
  intros H. cbn [_discover_type].
  assert (Hrec : String.eqb typ "RECORD" = false).
  { apply String.eqb_neq. intros ->. apply H.
    unfold known_tags. rewrite !elem_of_cons. intuition. }
  rewrite Hrec. unfold dict_get.
  rewrite (legacy_lookup_unknown _ H). cbn [default].
  rewrite (dtype_lookup_unknown _ H). cbn [default]. reflexivity.
Qed.

End Discovery.

Lemma geometry_unknown : "GEOMETRY" ∉ known_tags.
Proof.
  unfold known_tags. rewrite !not_elem_of_cons.
  repeat split; try discriminate. apply not_elem_of_nil.
Qed.

Lemma discover_type_unknown_tag_witness :
  _discover_type array_of struct_of geometry_field = Ok (Tag "GEOMETRY").
Proof.
  apply (discover_type_unknown_tag array_of struct_of
           "shape" "GEOMETRY" "NULLABLE" []).
  apply geometry_unknown.
Defined.

(** C4 (as the claim words it) fails: the unknown tag GEOMETRY is returned
    as it came, and nothing is raised. *)
Lemma discover_type_no_error_counterexample :
  _discover_type array_of struct_of geometry_field = Ok (Tag "GEOMETRY") /\
  ~ exists e, _discover_type array_of struct_of geometry_field = Raise e.
Proof.
  split; [reflexivity|]. intros [e H]. vm_compute in H. discriminate H.
Qed.

Example discover_known_tags :
  _discover_type array_of struct_of (Field "n" "INTEGER" "NULLABLE" [])
    = Ok int64 /\
  _discover_type array_of struct_of (Field "xs" "FLOAT" "REPEATED" [])
    = Ok (Array double) /\
  _discover_type array_of struct_of
    (Field "r" "RECORD" "NULLABLE"
       [Field "a" "STRING" "NULLABLE" []; Field "b" "BOOL" "NULLABLE" []])
    = Ok (Struct ["a"; "b"] [string_; boolean]) /\
  _discover_type array_of struct_of (Field "r" "RECORD" "NULLABLE" [])
    = Raise AssertionError.
Proof. vm_compute. repeat split. Qed.

(** ** Schema inference *)

Section SchemaInference.

Variable dt_Array : dtype -> result dtype.
Variable dt_Struct : list string -> list dtype -> result dtype.
Variable dt_dtype : SchemaField -> result dtype.
Variable ibis_schema : list (string * dtype) -> result Schema.

#[local] Abbreviation declared := (declared_columns dt_Array dt_Struct).
#[local] Abbreviation infer_schema :=
  (pymapd_table_to_ibis_schema dt_Array dt_Struct ibis_schema).

(** C10.  Schema inference builds the schema from the declared columns
    followed by one timestamp column named [_PARTITIONTIME] exactly when
    [list_partitions()] returns a non-empty list; when it returns an empty
    list, or raises, the schema is built from the declared columns alone,
    and what it raised is not propagated. *)
Theorem schema_partition_column (table : BackendTable)
    (columns : list (string * dtype)) :
  declared table = Ok columns ->
  (forall partitions,
     list_partitions table = Ok partitions -> partitions <> [] ->
     infer_schema table =
       ibis_schema (columns ++ [("_PARTITIONTIME", timestamp)])) /\
  (list_partitions table = Ok [] ->
   infer_schema table = ibis_schema columns) /\
  (forall e,
     list_partitions table = Raise e ->
     infer_schema table = ibis_schema columns).
Proof.
  unfold declared_columns, pymapd_table_to_ibis_schema. intros ->.
  cbn [mbind result_bind]. unfold try_except.
  split; [|split].
  - intros partitions -> Hne. apply truthy_nonempty in Hne.
    cbn [mbind result_bind]. now rewrite Hne.
  - intros ->. reflexivity.
  - intros e ->. reflexivity.
Qed.

(** The sibling [pymapd_schema] treats the partition column the same
    way. *)
Lemma pymapd_schema_partition_column (table : BackendTable)
    (columns : list (string * dtype)) :
  mapM (fun el => t ← dt_dtype el; Ok (field_name el, t)) (schema table)
    = Ok columns ->
  pymapd_schema dt_dtype ibis_schema table =
    ibis_schema
      (match list_partitions table with
       | Ok (_ :: _) => columns ++ [("_PARTITIONTIME", timestamp)]
       | _ => columns
       end).
Proof.
  unfold pymapd_schema. intros ->. cbn [mbind result_bind].
  unfold try_except.
  destruct (list_partitions table) as [[|]|]; reflexivity.
Qed.

End SchemaInference.

Lemma schema_partition_column_witness :
  pymapd_table_to_ibis_schema array_of struct_of schema_of_pairs
    partitioned_table
  = schema_of_pairs [("n", int64); ("_PARTITIONTIME", timestamp)] /\
  pymapd_table_to_ibis_schema array_of struct_of schema_of_pairs
    unreachable_table
  = schema_of_pairs [("n", int64)].
Proof.
  split.
  - apply (proj1 (schema_partition_column array_of struct_of schema_of_pairs
                    partitioned_table [("n", int64)] eq_refl)
             ["20180101"]).
    + reflexivity.
    + discriminate.
  - apply (proj2 (proj2 (schema_partition_column array_of struct_of
                           schema_of_pairs unreachable_table
                           [("n", int64)] eq_refl))
             (RuntimeError "backend unavailable")).
    reflexivity.
Defined.

Example schema_examples :
  pymapd_table_to_ibis_schema array_of struct_of schema_of_pairs
    partitioned_table
  = Ok [("n", int64); ("_PARTITIONTIME", timestamp)] /\
  pymapd_table_to_ibis_schema array_of struct_of schema_of_pairs
    unreachable_table
  = Ok [("n", int64)].
Proof. vm_compute. split; reflexivity. Qed.

(** ** The parameter binder *)

Section Binding.

Variable pd_Timestamp : py_value -> option Z -> result datetime.

#[local] Abbreviation bind_param := (pymapd_param pd_Timestamp).

Lemma resolve_timestamp (value : py_value) :
  timestamp_like value ->
  resolve C_TimestampScalar (type_of value) = Some pymapd_param_timestamp.
Proof. destruct value; cbn; intros H; try contradiction; reflexivity. Qed.

(** Among the rules for a date placeholder, a datetime selects the rule
    for datetimes, not the rule for dates it also matches. *)
Lemma resolve_date_rules :
  resolve C_DateScalar T_str = Some pymapd_param_date_string /\
  resolve C_DateScalar T_datetime = Some pymapd_param_date_datetime /\
  resolve C_DateScalar T_date = Some pymapd_param_date.
Proof. repeat split. Qed.

(** C6 (as the code has it).  For a date placeholder, a [datetime.date]
    binds directly as a DATE parameter; a [datetime.datetime] is cut down
    with [.date()], its own calendar date, with no timestamp normalisation;
    a string is parsed by [pd.Timestamp] without a time zone, not
    normalised to UTC, and then cut down to its date.  The rule for a
    string or a datetime hands the date back to the dispatcher. *)
Theorem bind_date_param (depth : nat) (name : string) :
  (2 <= depth)%nat ->
  (forall d,
     bind_param depth (DateScalar name) (VDate d) =
       Ok (ScalarQueryParameter name "DATE" (VDate d))) /\
  (forall d,
     bind_param depth (DateScalar name) (VDatetime d) =
       Ok (ScalarQueryParameter name "DATE" (VDate (date_of d)))) /\
  (forall s,
     bind_param depth (DateScalar name) (VStr s) =
       (ts ← pd_Timestamp (VStr s) None;
        Ok (ScalarQueryParameter name "DATE" (VDate (date_of ts))))).
Proof.
  intros Hdepth. destruct depth as [|[|depth]]; [lia | lia |].
  split; [|split]; intros; reflexivity.
Qed.

Hypothesis pd_Timestamp_utc :
  forall value ts,
    pd_Timestamp value (Some UTC) = Ok ts -> tzinfo ts = Some UTC.

(** C7.  For a timestamp placeholder bound with a string, a date or a
    datetime, the binder returns the parameter named after the placeholder
    with type tag TIMESTAMP whose value is the input normalised by
    [pd.Timestamp(value, tz='UTC')], an instant qualified with UTC; when the
    normalisation raises, so does the binder. *)
Theorem bind_timestamp_param (depth : nat) (name : string)
    (value : py_value) :
  (1 <= depth)%nat ->
  timestamp_like value ->
  bind_param depth (TimestampScalar name) value =
    (ts ← pd_Timestamp value (Some UTC);
     Ok (ScalarQueryParameter name "TIMESTAMP" (VDatetime ts))) /\
  (forall bound,
     bind_param depth (TimestampScalar name) value = Ok bound ->
     exists ts,
       bound = ScalarQueryParameter name "TIMESTAMP" (VDatetime ts) /\
       pd_Timestamp value (Some UTC) = Ok ts /\
       tzinfo ts = Some UTC).
Proof.
  intros Hdepth Hlike. destruct depth as [|depth]; [lia|].
  assert (Heq : bind_param (S depth) (TimestampScalar name) value =
                (ts ← pd_Timestamp value (Some UTC);
                 Ok (ScalarQueryParameter name "TIMESTAMP" (VDatetime ts)))).
  { cbn [pymapd_param class_of]. rewrite (resolve_timestamp _ Hlike).
    destruct value; try contradiction; reflexivity. }
  split; [exact Heq|].
  intros bound. rewrite Heq.
  destruct (pd_Timestamp value (Some UTC)) as [ts|] eqn:Hts; [|discriminate].
  cbn. intros [= <-]. exists ts. repeat split.
  exact (pd_Timestamp_utc value ts Hts).
Qed.

End Binding.

Lemma pandas_Timestamp_utc (parse : string -> result datetime)
    (value : py_value) (ts : datetime) :
  pandas_Timestamp parse value (Some UTC) = Ok ts -> tzinfo ts = Some UTC.
Proof.
  unfold pandas_Timestamp.
  destruct (match value with
            | VStr s => parse s
            | VDatetime d => Ok d
            | VDate d => Ok (midnight d)
            | _ => Raise (ValueError "Cannot convert input to Timestamp")
            end) as [t|]; cbn; [|discriminate].
  destruct (tzinfo t); intros [= <-]; reflexivity.
Qed.

Lemma bind_timestamp_param_witness :
  pymapd_param (pandas_Timestamp no_parse) 1 (TimestampScalar "since")
    (VDatetime new_year_evening)
  = (ts ← pandas_Timestamp no_parse (VDatetime new_year_evening) (Some UTC);
     Ok (ScalarQueryParameter "since" "TIMESTAMP" (VDatetime ts))).
Proof.
  apply (bind_timestamp_param (pandas_Timestamp no_parse)
           (pandas_Timestamp_utc no_parse) 1 "since"
           (VDatetime new_year_evening)).
  - lia.
  - exact I.
Defined.

Example bind_timestamp_new_year :
  pymapd_param (pandas_Timestamp no_parse) 1 (TimestampScalar "since")
    (VDatetime new_year_evening)
  = Ok (ScalarQueryParameter "since" "TIMESTAMP"
          (VDatetime new_year_evening_utc)).
Proof. reflexivity. Qed.

Lemma bind_date_param_witness :
  pymapd_param (pandas_Timestamp no_parse) 2 (DateScalar "day")
    (VDatetime new_year_evening)
  = Ok (ScalarQueryParameter "day" "DATE"
          (VDate (date_of new_year_evening))).
Proof.
  apply (proj1 (proj2 (bind_date_param (pandas_Timestamp no_parse) 2 "day"
                         (le_n 2)))).
Defined.

(** C6 (as the claim words it) fails: a date placeholder bound with a
    datetime of the evening of 1 January, five hours west of UTC, yields
    1 January, the date of its own calendar, while the timestamp
    normalisation followed by truncation yields 2 January. *)
Lemma bind_date_not_normalized_counterexample :
  pymapd_param (pandas_Timestamp no_parse) 2 (DateScalar "day")
    (VDatetime new_year_evening)
  = Ok (ScalarQueryParameter "day" "DATE"
          (VDate {| year := 2018; month := 1; day := 1 |})) /\
  spec_date_binding (pandas_Timestamp no_parse) "day"
    (VDatetime new_year_evening)
  = Ok (ScalarQueryParameter "day" "DATE"
          (VDate {| year := 2018; month := 1; day := 2 |})) /\
  pymapd_param (pandas_Timestamp no_parse) 2 (DateScalar "day")
    (VDatetime new_year_evening)
  <> spec_date_binding (pandas_Timestamp no_parse) "day"
       (VDatetime new_year_evening).
Proof. split; [reflexivity | split; [reflexivity | discriminate]]. Qed.

Example dispatch_examples :
  let bind := pymapd_param (pandas_Timestamp no_parse) 3 in
  bind (IntegerScalar "n") (VBool true)
    = Ok (ScalarQueryParameter "n" "INT64" (VBool true)) /\
  bind (BooleanScalar "b") (VInt 1)
    = Raise (NotImplementedError "Could not find signature for pymapd_param") /\
  bind (ArrayValue "xs" "int64") (VList [VInt 1; VInt 2])
    = Ok (ArrayQueryParameter "xs" "INT64" [VInt 1; VInt 2]) /\
  bind (ArrayValue "xs" "time") (VList [])
    = Raise (UnsupportedBackendType "array<time>") /\
  bind (StructScalar "s" [("a", StringScalar "a"); ("d", DateScalar "d")])
       (VOrderedDict [("a", VStr "x"); ("d", VDatetime new_year_evening)])
    = Ok (StructQueryParameter "s"
            [ScalarQueryParameter "a" "STRING" (VStr "x");
             ScalarQueryParameter "d" "DATE"
               (VDate {| year := 2018; month := 1; day := 1 |})]).
Proof. vm_compute. repeat split. Qed.

(** ** Compilation with new contexts *)

Section Contexts.

Import Entry.

Variable Node : Type.
Context `{EqDecision Node}.

(** The context of a compilation is a new object: its reference is not in
    the store before. *)
Lemma make_context_fresh (st : store Node) :
  st !! fresh (dom st) = None.
Proof. unfold store, ref in *. apply not_elem_of_dom_1, is_fresh. Qed.

(** Alias assignment: asking twice for the same node gives the same alias
    and leaves the store as it is; the first alias of a new context is
    [t0]. *)
Lemma find_appended (n : Node) (a : string) (refs : list (Node * string)) :
  List.find (fun entry => bool_decide (entry.1 = n)) refs = None ->
  List.find (fun entry => bool_decide (entry.1 = n)) (refs ++ [(n, a)])
    = Some (n, a).
Proof.
  induction refs as [|entry refs IH]; cbn.
  - now rewrite bool_decide_eq_true_2.
  - destruct (bool_decide (entry.1 = n)); [discriminate | exact IH].
Qed.

Lemma own_alias_appended (n : Node) (a : string) (ctx : QueryContext Node) :
  own_alias Node n ctx = None ->
  own_alias Node n
    {| always_alias := always_alias Node ctx;
       table_refs := table_refs Node ctx ++ [(n, a)];
       parents := parents Node ctx |} = Some a.
Proof.
  unfold own_alias. cbn.
  destruct (List.find _ (table_refs Node ctx)) eqn:Hf; [discriminate|].
  intros _. now rewrite (find_appended _ _ _ Hf).
Qed.

Lemma alias_for_idempotent (n : Node) (c : ref) (st : store Node) :
  let '(a, st') := alias_for Node n c st in
  alias_for Node n c st' = (a, st').
Proof.
  unfold alias_for.
  destruct (st !! c) as [ctx|] eqn:Hc; [|now rewrite Hc].
  destruct (own_alias Node n ctx) as [a|] eqn:Hl.
  - now rewrite Hc, Hl.
  - unfold store, ref in *. rewrite lookup_insert_eq.
    now rewrite (own_alias_appended _ _ _ Hl).
Qed.

Lemma alias_for_first (n : Node) (st : store Node) :
  let c := fresh (dom st) in
  (alias_for Node n c (<[c := new_context Node]> st)).1 = Ok "t0".
Proof.
  cbn zeta. unfold alias_for, store, ref in *.
  now rewrite lookup_insert_eq.
Qed.



Variable Expr : Type.
Variable Query : Type.
Variable builder_get_result : Expr -> ref -> M Node (list Query).
Variable query_compile : Query -> ref -> M Node string.

#[local] Abbreviation compile_sql :=
  (to_sql Expr Node Query builder_get_result query_compile).

(** With a context that is passed in, the builder and the serialisation
    run on the store as it is. *)
Lemma to_sql_given_context (expr : Expr) (st : store Node) (c : ref) :
  compile_sql expr (Some c) st =
    match builder_get_result expr c st with
    | (Ok (query :: _), st') => query_compile query c st'
    | (Ok [], st') => (Raise IndexError, st')
    | (Raise e, st') => (Raise e, st')
    end.
Proof.
  unfold to_sql, _get_query, build_ast, bind, ret, assert_not_None, throw.
  cbn.
  destruct (builder_get_result expr c st)
    as [[[|query queries]|e] st']; reflexivity.
Qed.


End Contexts.

Section Determinism.

Import Entry.

Variable get_name : expr -> result string.
Variable _translate : expr -> result string.
Variable util_indent : string -> nat -> string.
Variable self_indent : nat.

#[local] Abbreviation compile_table_set :=
  (to_sql table_expr table_expr Select Lowering.builder_get_result
     (Lowering.query_compile get_name _translate util_indent self_indent)).


Lemma local_alias_flag (n : table_expr) (ctx : QueryContext table_expr) :
  always_alias table_expr (local_alias n ctx).2 = always_alias table_expr ctx.
Proof. unfold local_alias. now destruct (own_alias table_expr n ctx). Qed.











End Determinism.

(** With a context passed in, the text depends on what that context and
    its parents hold.  In a child of a context that has assigned two
    aliases the tables of the join get the next two; with no context given
    they get the first two, in that same store. *)
Example to_sql_in_child_context :
  let compile :=
    Entry.to_sql table_expr table_expr Select Lowering.builder_get_result
      (Lowering.query_compile resolve_name translate_expr indent 2) in
  let '(child, st) := Entry.push table_expr 3 (<[3 := outer_context]> ∅) in
  (compile flights_airports None st).1 =
    Ok (join nl ["SELECT *"; "FROM flights t0"; "  JOIN airports t1";
                 "    USING code"]) /\
  (c ← child; (compile flights_airports (Some c) st).1) =
    Ok (join nl ["SELECT *"; "FROM flights t2"; "  JOIN airports t3";
                 "    USING code"]).
Proof. vm_compute. split; reflexivity. Qed.

(** A context that is used again keeps its aliases: a table that was not
    compiled before gets the next alias when aliasing is mandatory, where a
    new context would give none. *)
Example to_sql_in_used_context :
  let compile :=
    Entry.to_sql table_expr table_expr Select Lowering.builder_get_result
      (Lowering.query_compile resolve_name translate_expr indent 2) in
  (compile (Table "x") None one_context_store).1 =
    Ok (join nl ["SELECT *"; "FROM x"]) /\
  (compile (Table "x") (Some 7) one_context_store).1 =
    Ok (join nl ["SELECT *"; "FROM x t1"]).
Proof. vm_compute. split; reflexivity. Qed.

(** * Further properties *)

(** ** Qualified table names *)

Lemma split_on_cons (sep : Ascii.ascii) (text : string) :
  exists piece pieces, split_on sep text = piece :: pieces.
Proof.
  induction text as [|c rest (p & ps & IH)]; cbn -[Ascii.eqb]; [eauto|].
  destruct (Ascii.eqb c sep); [eauto|]. rewrite IH. eauto.
Qed.

Lemma length_split_on (sep : Ascii.ascii) (text : string) :
  length (split_on sep text) = S (count_char sep text).
Proof.
  induction text as [|c rest IH]; cbn -[Ascii.eqb]; [reflexivity|].
  destruct (Ascii.eqb c sep); cbn -[Ascii.eqb]; [now rewrite IH|].
  destruct (split_on sep rest); cbn in *; lia.
Qed.

Lemma split_on_no_sep (sep : Ascii.ascii) (text : string) :
  count_char sep text = 0 -> split_on sep text = [text].
Proof.
  induction text as [|c rest IH]; cbn -[Ascii.eqb]; [reflexivity|].
  destruct (Ascii.eqb c sep); cbn -[Ascii.eqb]; [discriminate|].
  intros H. now rewrite (IH H).
Qed.

Lemma split_on_app_sep (sep : Ascii.ascii) (a b : string) :
  count_char sep a = 0 ->
  split_on sep (a +:+ String sep b) = a :: split_on sep b.
Proof.
  induction a as [|c a IH].
  - intros _. change ("" +:+ String sep b) with (String sep b).
    cbn -[Ascii.eqb]. now rewrite Ascii.eqb_refl.
  - rewrite append_cons. cbn -[Ascii.eqb].
    destruct (Ascii.eqb c sep); [discriminate|].
    intros H. now rewrite (IH H).
Qed.

Lemma count_char_app (sep : Ascii.ascii) (a b : string) :
  count_char sep (a +:+ b) = count_char sep a + count_char sep b.
Proof.
  induction a as [|c a IH]; [reflexivity|].
  rewrite append_cons. cbn -[Ascii.eqb]. rewrite IH. lia.
Qed.

Lemma split_on_one_sep (sep : Ascii.ascii) (text : string) :
  count_char sep text = 1 ->
  exists a b,
    text = a +:+ String sep b /\
    count_char sep a = 0 /\ count_char sep b = 0 /\
    split_on sep text = [a; b].
Proof.
  induction text as [|c rest IH]; cbn -[Ascii.eqb]; [discriminate|].
  destruct (Ascii.eqb c sep) eqn:Hc; cbn -[Ascii.eqb].
  - intros [= H]. apply Ascii.eqb_eq in Hc. subst c.
    exists "", rest. rewrite (split_on_no_sep _ _ H). auto.
  - intros H. destruct (IH H) as (a & b & -> & Ha & Hb & Hs).
    exists (String c a), b. rewrite Hs. cbn -[Ascii.eqb]. rewrite Hc. auto.
Qed.

Lemma ensure_split_many_dots (table_id : string)
    (dataset_id : option string) :
  2 <= count_char dot table_id ->
  _ensure_split table_id dataset_id = Raise AssertionError.
Proof.
  intros H. unfold _ensure_split. rewrite length_split_on.
  destruct (count_char dot table_id) as [|[|n]]; [lia | lia | reflexivity].
Qed.

(** X1.  [_ensure_split] decides by the number of dots in the table name.
    Without a dot both arguments come back unchanged.  With one dot and no
    dataset given, the name is cut at the dot into dataset and table.  With
    one dot and a dataset given, it raises [ValueError].  With two dots or
    more it raises [AssertionError], whether a dataset is given or not. *)
Theorem ensure_split_by_dots (table_id : string)
    (dataset_id : option string) :
  (dots table_id = 0 ->
   _ensure_split table_id dataset_id = Ok (table_id, dataset_id)) /\
  (dots table_id = 1 -> truthy_str dataset_id = false ->
   exists d t,
     table_id = d +:+ "." +:+ t /\ dots d = 0 /\ dots t = 0 /\
     _ensure_split table_id dataset_id = Ok (t, Some d)) /\
  (dots table_id = 1 -> truthy_str dataset_id = true ->
   _ensure_split table_id dataset_id =
     Raise (ValueError
       "Can't pass a fully qualified table name *AND* a dataset_id")) /\
  (2 <= dots table_id ->
   _ensure_split table_id dataset_id = Raise AssertionError).
Proof.
  unfold _ensure_split, dots.
  pose proof (length_split_on dot table_id) as Hlen.
  split; [|split; [|split]].
  - intros H. rewrite Hlen, H. reflexivity.
  - intros H Hd.
    destruct (split_on_one_sep _ _ H) as (d & t & -> & Hdd & Ht & Hs).
    exists d, t. rewrite Hs, Hd. cbn -[Ascii.eqb]. auto.
  - intros H Hd. rewrite Hlen, H. cbn -[Ascii.eqb]. now rewrite Hd.
  - apply ensure_split_many_dots.
Qed.

Lemma ensure_split_by_dots_witness :
  _ensure_split "sales" (Some "shop") = Ok ("sales", Some "shop") /\
  (exists d t,
     "shop.sales" = d +:+ "." +:+ t /\ dots d = 0 /\ dots t = 0 /\
     _ensure_split "shop.sales" None = Ok (t, Some d)) /\
  _ensure_split "shop.sales" (Some "shop") =
    Raise (ValueError
      "Can't pass a fully qualified table name *AND* a dataset_id") /\
  _ensure_split "a.shop.sales" (Some "shop") = Raise AssertionError.
Proof.
  split; [|split; [|split]].
  - apply (proj1 (ensure_split_by_dots "sales" (Some "shop"))). reflexivity.
  - apply (proj1 (proj2 (ensure_split_by_dots "shop.sales" None)));
      reflexivity.
  - apply (proj1 (proj2 (proj2 (ensure_split_by_dots "shop.sales"
                                  (Some "shop"))))); reflexivity.
  - apply (proj2 (proj2 (proj2 (ensure_split_by_dots "a.shop.sales"
                                  (Some "shop"))))). vm_compute. lia.
Defined.

(** X2.  Splitting undoes qualifying: for a table name and a dataset
    without dots, [_ensure_split] applied to [_fully_qualified_name] and no
    dataset gives back the table name and the dataset that was used.  A
    table name that already holds a dot cannot be qualified again: the
    split then raises [AssertionError]. *)
Theorem ensure_split_fully_qualified_name (current name : string)
    (database : option string) :
  dots (or_else database current) = 0 ->
  (dots name = 0 ->
   _ensure_split (_fully_qualified_name current name database) None =
     Ok (name, Some (or_else database current))) /\
  (1 <= dots name ->
   _ensure_split (_fully_qualified_name current name database) None =
     Raise AssertionError).
Proof.
  unfold _fully_qualified_name. intros Hd.
  set (d := or_else database current) in *.
  change (d +:+ "." +:+ name) with (d +:+ String dot name).
  split.
  - intros Hn. unfold _ensure_split.
    rewrite (split_on_app_sep _ _ _ Hd), (split_on_no_sep _ _ Hn).
    reflexivity.
  - intros Hn.
    apply ensure_split_many_dots.
    unfold dots in *. rewrite count_char_app. cbn -[Ascii.eqb].
    rewrite Ascii.eqb_refl. lia.
Qed.

Lemma ensure_split_fully_qualified_name_witness :
  _ensure_split (_fully_qualified_name "shop" "sales" None) None =
    Ok ("sales", Some "shop") /\
  _ensure_split (_fully_qualified_name "shop" "eu.sales" (Some "archive"))
    None = Raise AssertionError.
Proof.
  split.
  - apply (proj1 (ensure_split_fully_qualified_name "shop" "sales" None
                    eq_refl)). reflexivity.
  - apply (proj2 (ensure_split_fully_qualified_name "shop" "eu.sales"
                    (Some "archive") eq_refl)). vm_compute. lia.
Defined.

(** ** Type discovery, continued *)

Lemma mapM_ext_Forall {A B} (f g : A -> result B) (l : list A) :
  Forall (fun x => f x = g x) l -> mapM f l = mapM g l.
Proof.
  induction 1 as [|x l Hx _ IH]; [reflexivity|].
  now rewrite !mapM_cons, Hx, IH.
Qed.

Lemma mapM_app_Raise {A B} (f : A -> result B) (pre rest : list A) (x : A)
    (ys : list B) (e : exn) :
  mapM f pre = Ok ys -> f x = Raise e ->
  mapM f (pre ++ x :: rest) = Raise e.
Proof.
  revert ys. induction pre as [|p pre IH]; intros ys Hpre Hx.
  - cbn [app]. now rewrite mapM_cons, Hx.
  - rewrite mapM_cons in Hpre.
    destruct (f p) as [y|] eqn:Hp; [|discriminate].
    destruct (mapM f pre) as [ys'|] eqn:Hpre'; [|discriminate].
    rewrite <- app_comm_cons, mapM_cons, Hp, (IH ys' eq_refl Hx).
    reflexivity.
Qed.

Lemma mapM_fst_names {A} (f : SchemaField -> result A)
    (l : list SchemaField) (k : list (string * A)) :
  mapM (fun el => t ← f el; Ok (field_name el, t)) l = Ok k ->
  map fst k = map field_name l.
Proof.
  intros H. apply mapM_Ok in H.
  induction H as [|x y l k Hx _ IH]; [reflexivity|].
  cbn. rewrite IH. f_equal.
  destruct (f x); cbn in Hx; [|discriminate]. now injection Hx as <-.
Qed.

Section DiscoveryMore.

Variable dt_Array : dtype -> result dtype.
Variable dt_Struct : list string -> list dtype -> result dtype.
Variable dt_dtype : SchemaField -> result dtype.
Variable ibis_schema : list (string * dtype) -> result Schema.

#[local] Abbreviation discover := (_discover_type dt_Array dt_Struct).
#[local] Abbreviation infer_schema :=
  (pymapd_table_to_ibis_schema dt_Array dt_Struct ibis_schema).

#[local] Abbreviation wrap := (wrap_mode dt_Array).

Lemma discover_scalar (name typ mode : string) (fields : list SchemaField) :
  typ <> "RECORD" ->
  discover (Field name typ mode fields) =
    let standard := dict_get _LEGACY_TO_STANDARD typ typ in
    wrap mode (dict_get _DTYPE_TO_IBIS_TYPE standard (Tag standard)).
Proof.
  intros H. apply String.eqb_neq in H. cbn [_discover_type].
  now rewrite H.
Qed.

Lemma discover_record (name mode : string) (fields : list SchemaField) :
  discover (Field name "RECORD" mode fields) =
    (_ ← assert (truthy fields);
     types ← mapM discover fields;
     s ← dt_Struct (map field_name fields) types;
     wrap mode s).
Proof.
  cbn [_discover_type]. rewrite String.eqb_refl.
  set (each := fix each (els : list SchemaField) : result (list dtype) :=
                 match els with
                 | [] => Ok []
                 | el :: els' =>
                     t ← discover el; ts ← each els'; Ok (t :: ts)
                 end).
  assert (Heach : forall l, each l = mapM discover l).
  { induction l as [|x l IH]; [reflexivity|].
    rewrite mapM_cons. cbn [each]. rewrite IH.
    destruct (discover x); [|reflexivity].
    cbn [mbind result_bind]. destruct (mapM discover l); reflexivity. }
  rewrite Heach. unfold wrap_mode.
  destruct (assert (truthy fields)); cbn [mbind result_bind];
    [|reflexivity].
  destruct (mapM discover fields); cbn [mbind result_bind]; [|reflexivity].
  destruct (dt_Struct _ _); reflexivity.
Qed.

(** X3.  A legacy type tag is discovered exactly as the standard tag it
    stands for: for every entry of [_LEGACY_TO_STANDARD], a field with the
    legacy tag and a field with the standard tag, of the same mode, get the
    same type. *)
Theorem discover_type_legacy_as_standard (legacy standard : string)
    (name name' mode : string) (fields fields' : list SchemaField) :
  _LEGACY_TO_STANDARD !! legacy = Some standard ->
  discover (Field name legacy mode fields) =
    discover (Field name' standard mode fields').
Proof.
  intros H. unfold _LEGACY_TO_STANDARD in H.
  cbn [list_to_map foldr uncurry fst snd] in H.
  repeat (rewrite lookup_insert in H; case_decide;
          [subst legacy; injection H as <-;
           rewrite !discover_scalar by discriminate;
           vm_compute; reflexivity|]).
  rewrite lookup_empty in H. discriminate H.
Qed.

(** X4.  For a field that is neither a record nor repeated, discovery
    always returns, and what it returns is a type constant of
    [ibis.expr.datatypes] exactly when the tag is a known one; otherwise it
    is the tag itself. *)
Theorem discover_type_constant_iff_known (name typ mode : string)
    (fields : list SchemaField) :
  typ <> "RECORD" -> mode <> "REPEATED" ->
  exists t,
    discover (Field name typ mode fields) = Ok t /\
    (is_type_constant t = true <-> typ ∈ known_tags) /\
    (typ ∉ known_tags -> t = Tag typ).
Proof.
  intros Hrec Hmode. rewrite discover_scalar by assumption.
  apply String.eqb_neq in Hmode. unfold wrap_mode. cbn zeta. rewrite Hmode.
  eexists. split; [reflexivity|].
  destruct (decide (typ ∈ known_tags)) as [Hin|Hout].
  - split; [|contradiction]. split; [auto|]. intros _.
    unfold known_tags in Hin. rewrite !elem_of_cons in Hin.
    repeat (destruct Hin as [->|Hin]; [try reflexivity; congruence|]).
    inversion Hin.
  - unfold dict_get.
    rewrite (legacy_lookup_unknown _ Hout). cbn [default].
    rewrite (dtype_lookup_unknown _ Hout). cbn [default].
    split; [|reflexivity]. split; [discriminate | contradiction].
Qed.

(** X5.  The mode of a field matters only through whether it is REPEATED:
    a repeated field gets [dt.Array] applied to what the same field gets
    under any other mode, and fails where that fails. *)
Theorem discover_type_repeated (name typ mode : string)
    (fields : list SchemaField) :
  mode <> "REPEATED" ->
  discover (Field name typ "REPEATED" fields) =
    (t ← discover (Field name typ mode fields); dt_Array t).
Proof.
  intros Hmode. apply String.eqb_neq in Hmode.
  cbn [_discover_type]. rewrite Hmode.
  change (String.eqb "REPEATED" "REPEATED") with true. cbv iota.
  match goal with
  | |- mbind _ ?inner = _ => destruct inner
  end; reflexivity.
Qed.

(** X6.  A record field.  Without sub-fields discovery raises
    [AssertionError], before [dt.Struct] or [dt.Array] is reached.  With
    sub-fields that are all discovered, [dt.Struct] receives the names of
    the sub-fields in order and as many types as names.  When a sub-field
    fails after its predecessors succeed, the record fails with that
    error. *)
Theorem discover_type_record (name mode : string)
    (fields : list SchemaField) :
  (fields = [] ->
   discover (Field name "RECORD" mode fields) = Raise AssertionError) /\
  (forall types,
     fields <> [] -> mapM discover fields = Ok types ->
     length types = length (map field_name fields) /\
     discover (Field name "RECORD" mode fields) =
       (s ← dt_Struct (map field_name fields) types; wrap mode s)) /\
  (forall pre f rest types e,
     fields = pre ++ f :: rest ->
     mapM discover pre = Ok types -> discover f = Raise e ->
     discover (Field name "RECORD" mode fields) = Raise e).
Proof.
  rewrite discover_record. split; [|split].
  - intros ->. reflexivity.
  - intros types Hne Htypes. split.
    + apply mapM_Ok, Forall2_length in Htypes. now rewrite length_map.
    + apply truthy_nonempty in Hne. rewrite Hne, Htypes. reflexivity.
  - intros pre f rest types e -> Hpre Hf.
    rewrite (mapM_app_Raise _ _ _ _ _ _ Hpre Hf).
    destruct pre; reflexivity.
Qed.

(** X7.  [pymapd_field_to_ibis_dtype] and [_discover_type] agree on every
    field that is not a record, and on a record whenever [dt.dtype] treats
    its sub-fields as [_discover_type] does. *)
Theorem field_to_ibis_dtype_discover (field : SchemaField) :
  field_type field <> "RECORD" \/
    Forall (fun f => dt_dtype f = discover f) (field_fields field) ->
  pymapd_field_to_ibis_dtype dt_Array dt_Struct dt_dtype field =
    discover field.
Proof.
  destruct field as [name typ mode fields]. cbn [field_type field_fields].
  unfold pymapd_field_to_ibis_dtype.
  cbn [field_type field_fields field_mode].
  destruct (String.eqb typ "RECORD") eqn:Hrec.
  - apply String.eqb_eq in Hrec. subst typ.
    intros [Hne | Hall]; [congruence|].
    rewrite discover_record, (mapM_ext_Forall _ _ _ Hall). unfold wrap_mode.
    destruct (assert (truthy fields)); cbn [mbind result_bind];
      [|reflexivity].
    destruct (mapM discover fields); cbn [mbind result_bind]; [|reflexivity].
    destruct (dt_Struct _ _); reflexivity.
  - intros _. apply String.eqb_neq in Hrec.
    now rewrite discover_scalar by assumption.
Qed.

(** X8.  Schema inference either fails with the error of type discovery
    on the declared fields, whatever [list_partitions()] does, or hands
    [ibis.schema] the declared field names in declaration order, followed
    at most by the partition column. *)
Theorem schema_names_in_order (table : BackendTable) :
  (exists e,
     declared_columns dt_Array dt_Struct table = Raise e /\
     infer_schema table = Raise e) \/
  (exists columns extra,
     declared_columns dt_Array dt_Struct table = Ok columns /\
     map fst columns = map field_name (schema table) /\
     (extra = [] \/ extra = [("_PARTITIONTIME", timestamp)]) /\
     infer_schema table = ibis_schema (columns ++ extra)).
Proof.
  unfold declared_columns, pymapd_table_to_ibis_schema.
  destruct (mapM _ (schema table)) as [columns|e] eqn:Hcols.
  - right. cbn [mbind result_bind]. unfold try_except.
    destruct (list_partitions table) as [[|p ps]|e].
    + exists columns, []. rewrite app_nil_r.
      repeat split; eauto using mapM_fst_names.
    + exists columns, [("_PARTITIONTIME", timestamp)].
      repeat split; eauto using mapM_fst_names.
    + exists columns, []. rewrite app_nil_r.
      repeat split; eauto using mapM_fst_names.
  - left. exists e. split; reflexivity.
Qed.

(** X9.  Nothing keeps the partition column apart from the declared ones:
    for a table that declares a field named [_PARTITIONTIME] and lists a
    partition, the names handed to [ibis.schema] hold that name twice. *)
Theorem schema_partition_column_twice (table : BackendTable)
    (columns : list (string * dtype)) (partitions : list string) :
  declared_columns dt_Array dt_Struct table = Ok columns ->
  list_partitions table = Ok partitions -> partitions <> [] ->
  "_PARTITIONTIME" ∈ map field_name (schema table) ->
  exists pairs,
    infer_schema table = ibis_schema pairs /\ ~ NoDup (map fst pairs).
Proof.
  intros Hcols Hparts Hne Hin.
  exists (columns ++ [("_PARTITIONTIME", timestamp)]). split.
  - unfold declared_columns in Hcols. unfold pymapd_table_to_ibis_schema.
    rewrite Hcols. cbn [mbind result_bind]. unfold try_except.
    rewrite Hparts. cbn [mbind result_bind].
    apply truthy_nonempty in Hne. now rewrite Hne.
  - rewrite map_app, NoDup_app. intros (_ & Hdisj & _).
    apply (Hdisj "_PARTITIONTIME").
    + unfold declared_columns in Hcols.
      now rewrite (mapM_fst_names _ _ _ Hcols).
    + cbn. apply list_elem_of_singleton. reflexivity.
Qed.

End DiscoveryMore.

Lemma discover_type_legacy_as_standard_witness :
  _discover_type array_of struct_of (Field "qty" "INTEGER" "REPEATED" []) =
  _discover_type array_of struct_of (Field "n" "INT64" "REPEATED" []).
Proof.
  apply (discover_type_legacy_as_standard array_of struct_of
           "INTEGER" "INT64" "qty" "n" "REPEATED" [] []).
  vm_compute. reflexivity.
Defined.

Lemma discover_type_constant_iff_known_witness :
  exists t,
    _discover_type array_of struct_of (Field "price" "FLOAT" "NULLABLE" [])
      = Ok t /\
    (is_type_constant t = true <-> "FLOAT" ∈ known_tags) /\
    ("FLOAT" ∉ known_tags -> t = Tag "FLOAT").
Proof.
  apply (discover_type_constant_iff_known array_of struct_of
           "price" "FLOAT" "NULLABLE" []); discriminate.
Defined.

Lemma discover_type_repeated_witness :
  _discover_type array_of struct_of (Field "tags" "STRING" "REPEATED" []) =
    (t ← _discover_type array_of struct_of
           (Field "tags" "STRING" "NULLABLE" []);
     array_of t).
Proof.
  apply (discover_type_repeated array_of struct_of
           "tags" "STRING" "NULLABLE" []).
  discriminate.
Defined.

Lemma discover_type_record_witness :
  _discover_type array_of struct_of (Field "r" "RECORD" "REPEATED" [])
    = Raise AssertionError /\
  (length [string_; Tag "GEOMETRY"]
     = length (map field_name
                 [Field "a" "STRING" "NULLABLE" []; geometry_field]) /\
   _discover_type array_of struct_of
     (Field "r" "RECORD" "REPEATED"
        [Field "a" "STRING" "NULLABLE" []; geometry_field])
   = (s ← struct_of
            (map field_name
               [Field "a" "STRING" "NULLABLE" []; geometry_field])
            [string_; Tag "GEOMETRY"];
      wrap_mode array_of "REPEATED" s)) /\
  _discover_type array_of struct_of
    (Field "r" "RECORD" "NULLABLE"
       [Field "a" "STRING" "NULLABLE" []; Field "b" "RECORD" "NULLABLE" [];
        Field "c" "BOOL" "NULLABLE" []])
  = Raise AssertionError.
Proof.
  split; [|split].
  - apply (proj1 (discover_type_record array_of struct_of
                    "r" "REPEATED" [])). reflexivity.
  - apply (proj1 (proj2 (discover_type_record array_of struct_of
                           "r" "REPEATED"
                           [Field "a" "STRING" "NULLABLE" [];
                            geometry_field]))).
    + discriminate.
    + vm_compute. reflexivity.
  - apply (proj2 (proj2 (discover_type_record array_of struct_of
                           "r" "NULLABLE"
                           [Field "a" "STRING" "NULLABLE" [];
                            Field "b" "RECORD" "NULLABLE" [];
                            Field "c" "BOOL" "NULLABLE" []]))
             [Field "a" "STRING" "NULLABLE" []]
             (Field "b" "RECORD" "NULLABLE" [])
             [Field "c" "BOOL" "NULLABLE" []]
             [string_] AssertionError).
    + reflexivity.
    + vm_compute. reflexivity.
    + vm_compute. reflexivity.
Defined.

Lemma field_to_ibis_dtype_discover_witness :
  pymapd_field_to_ibis_dtype array_of struct_of
    (_discover_type array_of struct_of)
    (Field "r" "RECORD" "NULLABLE" [Field "a" "STRING" "NULLABLE" []])
  = _discover_type array_of struct_of
      (Field "r" "RECORD" "NULLABLE" [Field "a" "STRING" "NULLABLE" []]).
Proof.
  apply (field_to_ibis_dtype_discover array_of struct_of
           (_discover_type array_of struct_of)).
  right. constructor; [reflexivity | constructor].
Defined.

(** A table that declares a column under the name of the partition
    column. *)
Lemma schema_partition_column_twice_witness :
  exists pairs,
    pymapd_table_to_ibis_schema array_of struct_of schema_of_pairs
      {| schema := [Field "_PARTITIONTIME" "TIMESTAMP" "NULLABLE" []];
         list_partitions := Ok ["20180101"] |}
    = schema_of_pairs pairs /\ ~ NoDup (map fst pairs).
Proof.
  apply (schema_partition_column_twice array_of struct_of schema_of_pairs
           {| schema := [Field "_PARTITIONTIME" "TIMESTAMP" "NULLABLE" []];
              list_partitions := Ok ["20180101"] |}
           [("_PARTITIONTIME", timestamp)] ["20180101"]).
  - vm_compute. reflexivity.
  - reflexivity.
  - discriminate.
  - cbn. apply list_elem_of_singleton. reflexivity.
Defined.

(** ** The parameter binder, continued *)

Section BindingMore.

Variable pd_Timestamp : py_value -> option Z -> result datetime.

#[local] Abbreviation bind_param := (pymapd_param pd_Timestamp).

Lemma bind_param_step (depth : nat) (param : param_expr)
    (value : py_value) :
  bind_param (S depth) param value =
    match resolve (class_of param) (type_of value) with
    | Some h => run pd_Timestamp h (bind_param depth) param value
    | None =>
        Raise (NotImplementedError
                 "Could not find signature for pymapd_param")
    end.
Proof. reflexivity. Qed.

(** Replace the lookup of a rule for two given classes by the rule. *)
Ltac resolve_rule :=
  match goal with
  | |- context [resolve ?c ?t] =>
      let r := eval vm_compute in (resolve c t) in
      change (resolve c t) with r
  end.

(** X11.  Whatever the placeholder and the value, a parameter that the
    binder returns carries the name of the placeholder. *)
Theorem bind_param_keeps_name (depth : nat) :
  forall param value bound,
    bind_param depth param value = Ok bound ->
    bound_name bound = param_name param.
Proof.
  induction depth as [|depth IH]; intros param value bound;
    [discriminate|].
  rewrite bind_param_step.
  destruct (resolve (class_of param) (type_of value)) as [h|];
    [|discriminate].
  destruct h; cbn [run].
  - destruct value; try discriminate.
    destruct (mapM _ items); cbn; [|discriminate]. now intros [= <-].
  - destruct value; try discriminate. destruct param; try discriminate.
    destruct (_IBIS_TYPE_TO_DTYPE !! value_type); [|discriminate].
    now intros [= <-].
  - destruct (assert _); cbn; [|discriminate].
    destruct (pd_Timestamp value (Some UTC)); cbn; [|discriminate].
    now intros [= <-].
  - now intros [= <-].
  - now intros [= <-].
  - now intros [= <-].
  - now intros [= <-].
  - destruct (pd_Timestamp value None); cbn; [|discriminate]. apply IH.
  - destruct value; try discriminate. apply IH.
  - now intros [= <-].
Qed.

(** X12.  String, integer, floating and boolean placeholders bind a value
    of a class they are registered for as it is: the parameter has the tag
    of the placeholder's class and the very value that was given.  A [bool]
    given to an integer placeholder is bound, unchanged, under INT64. *)
Theorem bind_param_direct_scalar (depth : nat) (param : param_expr)
    (value : py_value) :
  (1 <= depth)%nat ->
  direct_scalar param = true ->
  supported (class_of param) (type_of value) = true ->
  exists tag,
    scalar_tag param = Some tag /\
    bind_param depth param value =
      Ok (ScalarQueryParameter (param_name param) tag value).
Proof.
  intros Hdepth Hdirect Hsup. destruct depth as [|depth]; [lia|].
  destruct param; try discriminate Hdirect;
    destruct value; try discriminate Hsup;
    eexists; split; reflexivity.
Qed.

Lemma resolve_supported (pc : param_class) (vc : value_class) :
  is_Some (resolve pc vc) <-> supported pc vc = true.
Proof.
  destruct pc, vc; vm_compute; split;
    (reflexivity || discriminate || eauto || (intros [? ?]; discriminate)).
Qed.

(** X13.  The binder has a rule exactly for the pairs of [supported]: for
    any other pair of placeholder class and value class it raises
    [NotImplementedError] and binds nothing.  So an [int] is no value for a
    boolean placeholder, and [None] is no value for any placeholder. *)
Theorem bind_param_unsupported (depth : nat) (param : param_expr)
    (value : py_value) :
  (1 <= depth)%nat ->
  supported (class_of param) (type_of value) = false ->
  bind_param depth param value =
    Raise (NotImplementedError "Could not find signature for pymapd_param").
Proof.
  intros Hdepth Hsup. destruct depth as [|depth]; [lia|].
  rewrite bind_param_step.
  destruct (resolve (class_of param) (type_of value)) as [h|] eqn:Hres;
    [|reflexivity].
  assert (Hs : is_Some (resolve (class_of param) (type_of value)))
    by (rewrite Hres; eauto).
  apply resolve_supported in Hs. congruence.
Qed.

(** X14.  An array placeholder binds any list, whatever it holds, when its
    element type is one of string, int64, double, boolean, timestamp and
    date, under the backend tag of that type and with the list unchanged;
    for any other element type it raises [UnsupportedBackendType]. *)
Theorem bind_param_array (depth : nat) (name value_type : string)
    (items : list py_value) :
  (1 <= depth)%nat ->
  (value_type ∈ array_element_types ->
   exists tag,
     _IBIS_TYPE_TO_DTYPE !! value_type = Some tag /\
     bind_param depth (ArrayValue name value_type) (VList items) =
       Ok (ArrayQueryParameter name tag items)) /\
  (value_type ∉ array_element_types ->
   exists what,
     bind_param depth (ArrayValue name value_type) (VList items) =
       Raise (UnsupportedBackendType what)).
Proof.
  intros Hdepth. destruct depth as [|depth]; [lia|].
  rewrite bind_param_step. cbn [class_of type_of].
  change (resolve C_ArrayValue T_list) with (Some pymapd_param_array).
  cbn [run param_name]. split.
  - unfold array_element_types. rewrite !elem_of_cons.
    intros Hin.
    repeat (destruct Hin as [->|Hin]; [eexists; split; reflexivity|]).
    inversion Hin.
  - unfold array_element_types. rewrite !not_elem_of_cons. intros Hout.
    assert (Hnone : _IBIS_TYPE_TO_DTYPE !! value_type = None).
    { unfold _IBIS_TYPE_TO_DTYPE. cbn [list_to_map foldr uncurry fst snd].
      rewrite !lookup_insert_ne
        by (intros E; subst value_type; intuition congruence).
      apply lookup_empty. }
    rewrite Hnone. eauto.
Qed.

(** X15.  A struct placeholder binds a dictionary item by item: the
    parameter has exactly one sub-parameter per item, in the order of the
    dictionary, each named after the field the item's key selects; fields
    the dictionary does not mention are not asked for.  When an item's key
    is no field of the placeholder, after the items before it were bound,
    the binder raises [KeyError] for that key. *)
Theorem bind_param_struct (depth : nat) (name : string)
    (fields : list (string * param_expr))
    (items : list (string * py_value)) :
  (forall bound,
     bind_param (S depth) (StructScalar name fields) (VOrderedDict items)
       = Ok bound ->
     exists sub_params,
       bound = StructQueryParameter name sub_params /\
       Forall2 (fun item sub =>
                  exists field,
                    assoc item.1 fields = Some field /\
                    bound_name sub = param_name field /\
                    bind_param depth field item.2 = Ok sub)
               items sub_params) /\
  (forall pre key value rest sub_params,
     items = pre ++ (key, value) :: rest ->
     mapM (fun kv => p ← getitem (StructScalar name fields) kv.1;
                     bind_param depth p kv.2) pre = Ok sub_params ->
     assoc key fields = None ->
     bind_param (S depth) (StructScalar name fields) (VOrderedDict items)
       = Raise (KeyError key)).
Proof.
  rewrite bind_param_step. cbn [class_of type_of].
  change (resolve C_StructScalar T_OrderedDict)
    with (Some pymapd_param_struct).
  cbn [run param_name]. split.
  - intros bound.
    destruct (mapM _ items) as [subs|] eqn:Hsubs; cbn; [|discriminate].
    intros [= <-]. exists subs. split; [reflexivity|].
    apply mapM_Ok in Hsubs.
    induction Hsubs as [|item sub items subs Hitem _ IH]; constructor;
      [|exact IH].
    cbn in Hitem. destruct (assoc item.1 fields) as [field|] eqn:Hfield;
      cbn in Hitem; [|discriminate].
    exists field. repeat split; [|exact Hitem].
    exact (bind_param_keeps_name _ _ _ _ Hitem).
  - intros pre key value rest sub_params -> Hpre Hkey.
    rewrite (mapM_app_Raise _ pre rest (key, value) sub_params
               (KeyError key) Hpre).
    + reflexivity.
    + cbn. now rewrite Hkey.
Qed.

(** X16.  A date placeholder never carries anything but a date: whatever
    value it is bound with, and at whatever depth, a parameter that the
    binder returns for it has the tag DATE and a pure date as its value. *)
Theorem bind_param_date_pure (depth : nat) (name : string)
    (value : py_value) (bound : query_parameter) :
  bind_param depth (DateScalar name) value = Ok bound ->
  exists d, bound = ScalarQueryParameter name "DATE" (VDate d).
Proof.
  destruct depth as [|depth]; [discriminate|].
  rewrite bind_param_step.
  destruct value; cbn [class_of type_of]; resolve_rule; cbn [run param_name];
    try discriminate.
  - destruct (pd_Timestamp (VStr s) None) as [ts|];
      cbn [mbind result_bind]; [|discriminate].
    destruct depth; [discriminate|]. intros [= <-]. eauto.
  - intros [= <-]. eauto.
  - destruct depth; [discriminate|]. intros [= <-]. eauto.
Qed.

(** X17.  The parameters sent with a query match the placeholders of the
    dictionary one to one: when all bind, there are as many parameters as
    placeholders, in the same order and under the same names; without a
    dictionary there are none. *)
Theorem bind_query_parameters_names (depth : nat)
    (query_parameters : option (list (param_expr * py_value)))
    (bound : list query_parameter) :
  bind_query_parameters pd_Timestamp depth query_parameters = Ok bound ->
  map bound_name bound =
    map (fun item => param_name item.1) (default [] query_parameters) /\
  (query_parameters = None -> bound = []).
Proof.
  unfold bind_query_parameters. intros H. split.
  - apply mapM_Ok in H.
    induction H as [|item b items bs Hitem _ IH]; [reflexivity|].
    cbn. rewrite IH. f_equal.
    exact (bind_param_keeps_name _ _ _ _ Hitem).
  - intros ->. cbn in H. now injection H as <-.
Qed.

End BindingMore.

Section TagsKnown.

Variable dt_Array : dtype -> result dtype.
Variable dt_Struct : list string -> list dtype -> result dtype.

(** X18.  The tags the binder writes are tags type discovery knows: every
    backend tag of [_IBIS_TYPE_TO_DTYPE], and every tag a scalar
    placeholder is bound under, is discovered as a type constant and not
    passed through. *)
Theorem binder_tags_discovered (tag name : string) :
  (exists value_type, _IBIS_TYPE_TO_DTYPE !! value_type = Some tag) \/
  (exists param, scalar_tag param = Some tag) ->
  exists t,
    _discover_type dt_Array dt_Struct (Field name tag "NULLABLE" []) = Ok t /\
    is_type_constant t = true.
Proof.
  intros [[value_type H] | [param H]].
  - unfold _IBIS_TYPE_TO_DTYPE in H.
    cbn [list_to_map foldr uncurry fst snd] in H.
    repeat (rewrite lookup_insert in H; case_decide;
            [injection H as <-; eexists; split; reflexivity|]).
    rewrite lookup_empty in H. discriminate H.
  - destruct param; cbn in H; try discriminate; injection H as <-;
      eexists; split; reflexivity.
Qed.

End TagsKnown.

(** A struct placeholder with a string field and a date field. *)
Lemma bind_param_keeps_name_witness :
  bound_name
    (StructQueryParameter "s"
       [ScalarQueryParameter "a" "STRING" (VStr "x");
        ScalarQueryParameter "d" "DATE"
          (VDate {| year := 2018; month := 1; day := 1 |})])
  = param_name
      (StructScalar "s" [("a", StringScalar "a"); ("d", DateScalar "d")]).
Proof.
  apply (bind_param_keeps_name (pandas_Timestamp no_parse) 3
           (StructScalar "s" [("a", StringScalar "a"); ("d", DateScalar "d")])
           (VOrderedDict
              [("a", VStr "x"); ("d", VDatetime new_year_evening)])).
  vm_compute. reflexivity.
Defined.

Lemma bind_param_direct_scalar_witness :
  exists tag,
    scalar_tag (IntegerScalar "n") = Some tag /\
    pymapd_param (pandas_Timestamp no_parse) 1 (IntegerScalar "n")
      (VBool true)
    = Ok (ScalarQueryParameter (param_name (IntegerScalar "n")) tag
            (VBool true)).
Proof.
  apply (bind_param_direct_scalar (pandas_Timestamp no_parse) 1
           (IntegerScalar "n") (VBool true)).
  - lia.
  - reflexivity.
  - reflexivity.
Defined.

Lemma bind_param_unsupported_witness :
  pymapd_param (pandas_Timestamp no_parse) 1 (BooleanScalar "b") (VInt 1) =
    Raise (NotImplementedError "Could not find signature for pymapd_param").
Proof.
  apply (bind_param_unsupported (pandas_Timestamp no_parse) 1
           (BooleanScalar "b") (VInt 1)).
  - lia.
  - reflexivity.
Defined.

Lemma time_not_array_element : "time" ∉ array_element_types.
Proof.
  unfold array_element_types. rewrite !not_elem_of_cons.
  repeat split; try discriminate. apply not_elem_of_nil.
Qed.

Lemma bind_param_array_witness :
  (exists tag,
     _IBIS_TYPE_TO_DTYPE !! "double" = Some tag /\
     pymapd_param (pandas_Timestamp no_parse) 1 (ArrayValue "xs" "double")
       (VList [VInt 1; VStr "two"])
     = Ok (ArrayQueryParameter "xs" tag [VInt 1; VStr "two"])) /\
  (exists what,
     pymapd_param (pandas_Timestamp no_parse) 1 (ArrayValue "ts" "time")
       (VList [])
     = Raise (UnsupportedBackendType what)).
Proof.
  split.
  - apply (proj1 (bind_param_array (pandas_Timestamp no_parse) 1
                    "xs" "double" [VInt 1; VStr "two"] (le_n 1))).
    unfold array_element_types. rewrite !elem_of_cons. auto.
  - apply (proj2 (bind_param_array (pandas_Timestamp no_parse) 1
                    "ts" "time" [] (le_n 1))).
    apply time_not_array_element.
Defined.

Lemma bind_param_struct_witness :
  (exists sub_params,
     StructQueryParameter "s" [ScalarQueryParameter "a" "STRING" (VStr "x")]
       = StructQueryParameter "s" sub_params /\
     Forall2 (fun item sub =>
                exists field,
                  assoc item.1 [("a", StringScalar "a"); ("d", DateScalar "d")]
                    = Some field /\
                  bound_name sub = param_name field /\
                  pymapd_param (pandas_Timestamp no_parse) 1 field item.2
                    = Ok sub)
             [("a", VStr "x")] sub_params) /\
  pymapd_param (pandas_Timestamp no_parse) 2
    (StructScalar "s" [("a", StringScalar "a"); ("d", DateScalar "d")])
    (VOrderedDict [("a", VStr "x"); ("z", VInt 1)])
  = Raise (KeyError "z").
Proof.
  split.
  - apply (proj1 (bind_param_struct (pandas_Timestamp no_parse) 1 "s"
                    [("a", StringScalar "a"); ("d", DateScalar "d")]
                    [("a", VStr "x")])).
    vm_compute. reflexivity.
  - apply (proj2 (bind_param_struct (pandas_Timestamp no_parse) 1 "s"
                    [("a", StringScalar "a"); ("d", DateScalar "d")]
                    [("a", VStr "x"); ("z", VInt 1)])
             [("a", VStr "x")] "z" (VInt 1) []
             [ScalarQueryParameter "a" "STRING" (VStr "x")]).
    + reflexivity.
    + vm_compute. reflexivity.
    + reflexivity.
Defined.

Lemma bind_param_date_pure_witness :
  exists d,
    ScalarQueryParameter "day" "DATE"
      (VDate {| year := 2018; month := 1; day := 1 |})
    = ScalarQueryParameter "day" "DATE" (VDate d).
Proof.
  apply (bind_param_date_pure (pandas_Timestamp no_parse) 2 "day"
           (VDatetime new_year_evening)).
  vm_compute. reflexivity.
Defined.

Lemma bind_query_parameters_names_witness :
  map bound_name
    [ScalarQueryParameter "n" "INT64" (VInt 7);
     ScalarQueryParameter "day" "DATE"
       (VDate {| year := 2018; month := 1; day := 1 |})]
  = map (fun item : param_expr * py_value => param_name item.1)
      (default []
         (Some [(IntegerScalar "n", VInt 7);
                (DateScalar "day", VDatetime new_year_evening)]))
  /\ (Some [(IntegerScalar "n", VInt 7);
            (DateScalar "day", VDatetime new_year_evening)] = None ->
      [ScalarQueryParameter "n" "INT64" (VInt 7);
       ScalarQueryParameter "day" "DATE"
         (VDate {| year := 2018; month := 1; day := 1 |})] = []).
Proof.
  apply (bind_query_parameters_names (pandas_Timestamp no_parse) 2
           (Some [(IntegerScalar "n", VInt 7);
                  (DateScalar "day", VDatetime new_year_evening)])).
  vm_compute. reflexivity.
Defined.

Lemma binder_tags_discovered_witness :
  exists t,
    _discover_type array_of struct_of (Field "n" "FLOAT64" "NULLABLE" [])
      = Ok t /\
    is_type_constant t = true.
Proof.
  apply (binder_tags_discovered array_of struct_of "FLOAT64" "n").
  left. exists "double". vm_compute. reflexivity.
Defined.

(** ** GROUP BY and HAVING, continued *)

Section GroupByMore.

Variable get_name : expr -> result string.
Variable _translate : expr -> result string.

#[local] Abbreviation group_by_text := (format_group_by get_name _translate).

(** X19.  [format_group_by] returns [None] exactly for an empty group-by
    list.  A text it returns always opens with the GROUP BY clause over the
    names of the group-by expressions, and is either that clause alone,
    when there is no having predicate, or that clause, a line break and the
    HAVING clause.  The names are resolved before any having predicate is
    translated: when a name cannot be resolved, that error is raised. *)
Theorem format_group_by_outcome (self : Select) :
  (group_by_text self = Ok None <-> group_by self = []) /\
  (forall text,
     group_by_text self = Ok (Some text) ->
     exists columns,
       mapM get_name (group_by self) = Ok columns /\
       ((having self = [] /\
         text = "GROUP BY " +:+ join ", " columns) \/
        (exists trans_exprs,
           having self <> [] /\
           mapM _translate (having self) = Ok trans_exprs /\
           text = "GROUP BY " +:+ join ", " columns +:+ nl +:+
                  "HAVING " +:+ join " AND " trans_exprs))) /\
  (forall e,
     group_by self <> [] -> mapM get_name (group_by self) = Raise e ->
     group_by_text self = Raise e).
Proof.
  unfold format_group_by.
  destruct (group_by self) as [|g gs] eqn:Hg.
  - split; [|split].
    + split; reflexivity.
    + discriminate.
    + congruence.
  - cbn [truthy negb].
    destruct (mapM get_name (g :: gs)) as [columns|e] eqn:Hcols;
      cbn [mbind result_bind].
    + destruct (having self) as [|h hs] eqn:Hh; cbn [truthy].
      * split; [|split].
        -- split; discriminate.
        -- intros text [= <-]. exists columns. split; [reflexivity|].
           left. split; reflexivity.
        -- discriminate.
      * destruct (mapM _translate (h :: hs)) as [trans|e] eqn:Htrans;
          cbn [mbind result_bind].
        -- split; [|split].
           ++ split; discriminate.
           ++ intros text [= <-]. exists columns. split; [reflexivity|].
              right. exists trans. repeat split. discriminate.
           ++ discriminate.
        -- split; [|split]; [split; discriminate | discriminate
                             | discriminate].
    + split; [|split].
      * split; discriminate.
      * discriminate.
      * intros e' _ [= <-]. reflexivity.
Qed.

End GroupByMore.

(** ** Join predicates, continued *)

Section ValidationMore.

Variable get_name : expr -> result string.

#[local] Abbreviation validate := (_validate_join_predicates get_name).
#[local] Abbreviation format_predicate := (_format_predicate get_name).

Lemma validate_Ok_iff (preds : list expr) :
  validate preds = Ok tt <-> Forall (same_named_equality get_name) preds.
Proof.
  split; [apply validate_Ok_inv|].
  intros H. rewrite <- (app_nil_r preds).
  now rewrite validate_app_same_named.
Qed.

(** X20.  What validation guarantees to the USING clause: for a list that
    passes validation, formatting every predicate succeeds, and the column
    formatted for a predicate, taken from its left side, is also the name
    of its right side. *)
Theorem validated_predicates_format (preds : list expr) :
  validate preds = Ok tt ->
  exists columns,
    mapM format_predicate preds = Ok columns /\
    length columns = length preds /\
    Forall2 (fun p c =>
               format_predicate p = Ok c /\
               exists l r,
                 op p = Comparison Equals l r /\
                 get_name l = Ok c /\ get_name r = Ok c)
            preds columns.
Proof.
  intros H. destruct (validated_columns _ _ H) as (cols & Hshared & Hfmt).
  exists cols. split; [exact Hfmt|]. split.
  - symmetry. eapply Forall2_length. exact Hshared.
  - apply mapM_Ok in Hfmt. clear H.
    induction Hshared as [|p c preds cols Hp _ IH]; [constructor|].
    inversion Hfmt; subst. constructor; [|now apply IH].
    split; assumption.
Qed.

(** X21.  Whether a list of predicates passes validation does not depend
    on their order, and a concatenation passes exactly when both parts
    pass; only which error is raised depends on the order. *)
Theorem validate_order_independent :
  (forall preds preds',
     Permutation preds preds' ->
     (_validate_join_predicates get_name preds = Ok tt <->
      _validate_join_predicates get_name preds' = Ok tt)) /\
  (forall preds preds',
     _validate_join_predicates get_name (preds ++ preds') = Ok tt <->
     _validate_join_predicates get_name preds = Ok tt /\
     _validate_join_predicates get_name preds' = Ok tt).
Proof.
  split.
  - intros preds preds' Hperm. rewrite !validate_Ok_iff.
    split; apply Permutation_Forall; [assumption | now symmetry].
  - intros preds preds'. rewrite !validate_Ok_iff. apply Forall_app.
Qed.

End ValidationMore.

(** ** Compilation entry points, continued *)

Section EntryMore.

Import Entry.

Variable Expr : Type.
Variable Node : Type.
Variable Query : Type.
Context `{EqDecision Node}.

Variable builder_get_result : Expr -> ref -> M Node (list Query).
Variable query_compile : Query -> ref -> M Node string.

(** X23.  [MapDQueryContext._to_sql] clears the flag that makes aliasing
    mandatory before it compiles: the text it returns is the one computed
    with the flag of the context off, its alias table and its parents as
    they were, whatever the flag was. *)
Theorem _to_sql_clears_always_alias (expr : Expr) (st : store Node)
    (c : ref) (ctx : QueryContext Node) :
  st !! c = Some ctx ->
  (_to_sql Expr Node Query builder_get_result query_compile expr c st).1 =
    match builder_get_result expr c
            (<[c := {| always_alias := false;
                       table_refs := table_refs Node ctx;
                       parents := parents Node ctx |}]> st)
    with
    | (Ok (query :: _), st') => (query_compile query c st').1
    | (Ok [], _) => Raise IndexError
    | (Raise e, _) => Raise e
    end.
Proof.
  intros Hc. unfold _to_sql, bind, with_context at 1. rewrite Hc.
  rewrite to_sql_given_context. unfold clear_always_alias.
  now destruct (builder_get_result expr c _) as [[[|query queries]|e] st'].
Qed.

End EntryMore.

Lemma format_group_by_outcome_witness :
  (format_group_by resolve_name translate_expr having_only = Ok None) /\
  (exists columns,
     mapM resolve_name (group_by grouped_only) = Ok columns /\
     ((having grouped_only = [] /\
       "GROUP BY a" = "GROUP BY " +:+ join ", " columns) \/
      (exists trans_exprs,
         having grouped_only <> [] /\
         mapM translate_expr (having grouped_only) = Ok trans_exprs /\
         "GROUP BY a" = "GROUP BY " +:+ join ", " columns +:+ nl +:+
                        "HAVING " +:+ join " AND " trans_exprs))).
Proof.
  split.
  - apply (proj1 (format_group_by_outcome resolve_name translate_expr
                    having_only)). reflexivity.
  - apply (proj1 (proj2 (format_group_by_outcome resolve_name translate_expr
                           grouped_only))). reflexivity.
Defined.

Lemma validated_predicates_format_witness :
  exists columns,
    mapM (_format_predicate resolve_name) [a_equals_a] = Ok columns /\
    length columns = length [a_equals_a] /\
    Forall2 (fun p c =>
               _format_predicate resolve_name p = Ok c /\
               exists l r,
                 op p = Comparison Equals l r /\
                 resolve_name l = Ok c /\ resolve_name r = Ok c)
            [a_equals_a] columns.
Proof.
  apply (validated_predicates_format resolve_name [a_equals_a]).
  reflexivity.
Defined.

Lemma validate_order_independent_witness :
  (_validate_join_predicates resolve_name [a_equals_a; lowered_equal]
     = Ok tt <->
   _validate_join_predicates resolve_name [lowered_equal; a_equals_a]
     = Ok tt).
Proof.
  apply (proj1 (validate_order_independent resolve_name)
           [a_equals_a; lowered_equal] [lowered_equal; a_equals_a]).
  apply perm_swap.
Defined.

Lemma _to_sql_clears_always_alias_witness :
  (Entry._to_sql table_expr table_expr Select Lowering.builder_get_result
     (Lowering.query_compile resolve_name translate_expr indent 2)
     (Table "x") 7 one_context_store).1 =
    match Lowering.builder_get_result (Table "x") 7
            (<[7 := {| Entry.always_alias := false;
                       Entry.table_refs :=
                         Entry.table_refs table_expr used_context;
                       Entry.parents :=
                         Entry.parents table_expr used_context |}]>
               one_context_store)
    with
    | (Ok (query :: _), st') =>
        (Lowering.query_compile resolve_name translate_expr indent 2
           query 7 st').1
    | (Ok [], _) => Raise IndexError
    | (Raise e, _) => Raise e
    end.
Proof.
  apply (_to_sql_clears_always_alias table_expr table_expr Select
           Lowering.builder_get_result
           (Lowering.query_compile resolve_name translate_expr indent 2)
           (Table "x") one_context_store 7 used_context).
  vm_compute. reflexivity.
Defined.

(** ** Splitting twice *)

(** X24.  A successful split returns a table name without dots, so that
    splitting its result again, as [get_schema] and [exists_table] do
    through [get_table], changes nothing and cannot fail. *)
Theorem ensure_split_idempotent (table_id : string)
    (dataset_id : option string) (t : string) (d : option string) :
  _ensure_split table_id dataset_id = Ok (t, d) ->
  dots t = 0 /\ _ensure_split t d = Ok (t, d).
Proof.
  intros H.
  assert (Hfree : forall name ds,
            count_char dot name = 0 -> _ensure_split name ds = Ok (name, ds)).
  { intros name ds Hn. unfold _ensure_split.
    now rewrite length_split_on, Hn. }
  unfold _ensure_split in H. rewrite length_split_on in H.
  destruct (count_char dot table_id) as [|[|n]] eqn:Hc.
  - injection H as <- <-. split; [exact Hc | now apply Hfree].
  - destruct (split_on_one_sep _ _ Hc) as (a & b & _ & _ & Hb & Hs).
    rewrite Hs in H. cbn in H.
    destruct (truthy_str dataset_id); [discriminate H|].
    injection H as <- <-. split; [exact Hb | now apply Hfree].
  - discriminate H.
Qed.

Lemma ensure_split_idempotent_witness :
  dots "sales" = 0 /\
  _ensure_split "sales" (Some "shop") = Ok ("sales", Some "shop").
Proof.
  apply (ensure_split_idempotent "shop.sales" None "sales" (Some "shop")).
  reflexivity.
Defined.
